(** * Slot accounting of the committee database layer

    A shallow embedding of [src/database/queries.js]: the relational tables
    the slot-accounting queries touch, the SQL statements of those queries as
    state transformers, the pg-promise combinators they are issued through
    ([one], [result], [batch], [tx], [catch]) and the exported functions
    themselves.  Integers of the store are modelled as mathematical integers
    ([Z]); SQL NULL is [None].  The store answers every statement: a
    statement fails only by raising a constraint violation, connection
    failures are not modelled. *)

From Stdlib Require Import ZArith String List Bool Lia.
From Stdlib Require Import Permutation.
Import ListNotations.

Local Open Scope string_scope.
Local Open Scope Z_scope.

(** ** Tables *)

(** [committee(committee_id, name, description, total_slots)] *)
Record committee_row : Type := mk_committee
  { committee_id : Z;
    name : string;
    description : string;
    total_slots : option Z }.

(** [committee_slots(committee_id, senate_division_short_name, slot_requirements)] *)
Record committee_slots_row : Type := mk_committee_slots
  { cs_committee_id : Z;
    cs_senate_division_short_name : string;
    slot_requirements : Z }.

(** [senate_division(senate_division_short_name, name)] *)
Record senate_division_row : Type := mk_senate_division
  { senate_division_short_name : string;
    sd_name : string }.

Record DB : Type := mk_DB
  { committee : list committee_row;
    committee_slots : list committee_slots_row;
    senate_division : list senate_division_row }.

Definition set_committee (db : DB) (t : list committee_row) : DB :=
  {| committee := t;
     committee_slots := committee_slots db;
     senate_division := senate_division db |}.

Definition set_committee_slots (db : DB) (t : list committee_slots_row) : DB :=
  {| committee := committee db;
     committee_slots := t;
     senate_division := senate_division db |}.

Definition with_total_slots (c : committee_row) (v : option Z) : committee_row :=
  {| committee_id := committee_id c;
     name := name c;
     description := description c;
     total_slots := v |}.

Definition with_slot_requirements (r : committee_slots_row) (v : Z)
  : committee_slots_row :=
  {| cs_committee_id := cs_committee_id r;
     cs_senate_division_short_name := cs_senate_division_short_name r;
     slot_requirements := v |}.

(** ** Values exchanged with the store *)

(** A row handed back to JavaScript: an object with the selected columns.
    Only two shapes occur in the slot-accounting queries. *)
Inductive row : Type :=
| Row_committeeId (committeeId : Z)
| Row_difference (difference : Z).

(** The driver's result object of a statement. *)
Record Result : Type := mk_Result
  { command : string;
    rowCount : nat;
    rows : list row }.

(** SQLSTATE codes the statements below can raise. *)
Definition not_null_violation : string := "23502".
Definition foreign_key_violation : string := "23503".
Definition unique_violation : string := "23505".
Definition in_failed_sql_transaction : string := "25P02".

(** pg-promise's [queryResultErrorCode]. *)
Inductive queryResultErrorCode : Type := noData | notEmpty | multiple.

(** What a single query can reject with. *)
Inductive query_error : Type :=
| QueryResultError (code : queryResultErrorCode)
| DatabaseError (code : string).

(** What a resolved query yields: [one] gives the row, [result] the result
    object. *)
Inductive value : Type :=
| VRow (r : row)
| VResult (r : Result).

(** One entry of a [BatchError]'s [data]. *)
Inductive settled : Type :=
| fulfilled (v : value)
| failed (e : query_error).

(** Rejection reasons of a promise of this layer. *)
Inductive reason : Type :=
| QueryError (e : query_error)
| BatchError (data : list settled).

Inductive outcome (A : Type) : Type :=
| Resolved (a : A)
| Rejected (e : reason).
Arguments Resolved {A} a.
Arguments Rejected {A} e.

(** A promise of this layer: run against the store, it settles and leaves a
    store behind. *)
Definition promise (A : Type) : Type := DB -> outcome A * DB.

(** [await p; k]: a rejection of [p] propagates. *)
Definition bind {A B} (p : promise A) (k : A -> promise B) : promise B :=
  fun db =>
    match p db with
    | (Resolved a, db') => k a db'
    | (Rejected e, db') => (Rejected e, db')
    end.

Notation "x <- p ;; k" := (bind p (fun x => k))
  (at level 61, p at next level, right associativity).

(** [p.catch(h)]: a rejection is handed to [h], whose return value becomes
    the resolved value. *)
Definition catch {A B} (p : promise A) (h : reason -> B) : promise (A + B) :=
  fun db =>
    match p db with
    | (Resolved a, db') => (Resolved (inl a), db')
    | (Rejected e, db') => (Resolved (inr (h e)), db')
    end.

(** A SQL statement with its parameters filled in: the store answers with a
    result object or raises a SQLSTATE code; a statement that raises changes
    nothing. *)
Definition statement : Type := DB -> (Result + string) * DB.

(** The promise of a single query: it can only reject with a
    [query_error]. *)
Definition query : Type := DB -> settled * DB.

(** [connection.one(query, values)] / [t.one]: exactly one row expected. *)
Definition one (q : statement) : query :=
  fun db =>
    match q db with
    | (inl r, db') =>
        match rows r with
        | [x] => (fulfilled (VRow x), db')
        | [] => (failed (QueryResultError noData), db')
        | _ :: _ :: _ => (failed (QueryResultError multiple), db')
        end
    | (inr code, db') => (failed (DatabaseError code), db')
    end.

(** [connection.result(query, values)] / [t.result]: the result object. *)
Definition result (q : statement) : query :=
  fun db =>
    match q db with
    | (inl r, db') => (fulfilled (VResult r), db')
    | (inr code, db') => (failed (DatabaseError code), db')
    end.

(** A query awaited or returned on its own. *)
Definition settles (q : query) : promise value :=
  fun db =>
    match q db with
    | (fulfilled v, db') => (Resolved v, db')
    | (failed e, db') => (Rejected (QueryError e), db')
    end.

(** Did the store itself raise?  (A [QueryResultError] is raised by the
    driver after the statement ran and does not abort the transaction.) *)
Definition aborts (o : settled) : bool :=
  match o with
  | failed (DatabaseError _) => true
  | _ => false
  end.

(** The queries of a batch run one after the other on the transaction's
    connection; once the store has raised, it refuses every later statement
    of the transaction. *)
Fixpoint batch_run (qs : list query) (aborted : bool) (db : DB)
  : list settled * DB :=
  match qs with
  | [] => ([], db)
  | q :: qs' =>
      if aborted then
        let (rs, db') := batch_run qs' true db in
        (failed (DatabaseError in_failed_sql_transaction) :: rs, db')
      else
        let (o, db1) := q db in
        let (rs, db2) := batch_run qs' (aborts o) db1 in
        (o :: rs, db2)
  end.

Fixpoint all_fulfilled (rs : list settled) : option (list value) :=
  match rs with
  | [] => Some []
  | fulfilled v :: rs' =>
      match all_fulfilled rs' with
      | Some vs => Some (v :: vs)
      | None => None
      end
  | failed _ :: _ => None
  end.

(** [t.batch([...])]: resolves with the array of values when every query
    resolved, rejects with a [BatchError] carrying every outcome otherwise. *)
Definition batch (qs : list query) : promise (list value) :=
  fun db =>
    let (rs, db') := batch_run qs false db in
    match all_fulfilled rs with
    | Some vs => (Resolved vs, db')
    | None => (Rejected (BatchError rs), db')
    end.

(** [connection.tx(cb)]: COMMIT when the callback's promise resolves,
    ROLLBACK when it rejects. *)
Definition tx {A} (cb : promise A) : promise A :=
  fun db =>
    match cb db with
    | (Resolved a, db') => (Resolved a, db')
    | (Rejected e, _) => (Rejected e, db)
    end.

(** [BatchError.first]: the first error of the batch. *)
Fixpoint first (rs : list settled) : option query_error :=
  match rs with
  | [] => None
  | failed e :: _ => Some e
  | fulfilled _ :: rs' => first rs'
  end.

(** ** SQL expressions *)

(** [a + b] of SQL: NULL when either operand is. *)
Definition sql_add (a b : option Z) : option Z :=
  match a, b with
  | Some x, Some y => Some (x + y)
  | _, _ => None
  end.

Definition is_null (a : option Z) : bool :=
  match a with None => true | Some _ => false end.

(** [WHERE committee_id = cid AND senate_division_short_name = sd] *)
Definition slot_matches (cid : Z) (sd : string) (r : committee_slots_row) : bool :=
  (cs_committee_id r =? cid) && (cs_senate_division_short_name r =? sd)%string.

Definition has_committee (db : DB) (cid : Z) : bool :=
  existsb (fun c => committee_id c =? cid) (committee db).

Definition has_senate_division (db : DB) (sd : string) : bool :=
  existsb (fun d => (senate_division_short_name d =? sd)%string)
    (senate_division db).

Definition has_slot (db : DB) (cid : Z) (sd : string) : bool :=
  existsb (slot_matches cid sd) (committee_slots db).

(** ** Constraints of the schema *)

(** Modelled from the spec: the table definitions (the migrations) are not
    among the source files; the persisted schema is given as
    [committee_slots(..., UNIQUE(committee_id, senate_division_short_name))]. *)
Definition committee_slots_unique_violation (db : DB) (cid : Z) (sd : string)
  : bool :=
  has_slot db cid sd.

(** Modelled from the spec: the table definitions are not among the source
    files; [committee_slots.committee_id] and
    [committee_slots.senate_division_short_name] are foreign keys to a
    committee and a senate division that must pre-exist. *)
Definition committee_slots_fk_violation (db : DB) (cid : Z) (sd : string)
  : bool :=
  negb (has_committee db cid) || negb (has_senate_division db sd).

Fixpoint has_duplicate (l : list string) : bool :=
  match l with
  | [] => false
  | x :: l' => existsb (String.eqb x) l' || has_duplicate l'
  end.

(** Modelled from the spec: the table definitions are not among the source
    files; the persisted schema is given as [committee(..., name UNIQUE, ...)]. *)
Definition committee_name_unique_violation (t : list committee_row) : bool :=
  has_duplicate (map name t).

Section Statements.

(** Whether the schema declares [committee.total_slots] NOT NULL.  Neither
    the source files nor the specification say; every statement below is
    given for both answers. *)
Variable total_slots_not_null : bool.

(** ** The statements of the slot-accounting queries *)

(** [INSERT INTO committee_slots(committee_id, senate_division_short_name,
    slot_requirements) VALUES($1, $2, $3) RETURNING committee_id as
    "committeeId"] *)
Definition sql_insert_committee_slots (p1 : Z) (p2 : string) (p3 : Z)
  : statement :=
  fun db =>
    if committee_slots_unique_violation db p1 p2 then (inr unique_violation, db)
    else if committee_slots_fk_violation db p1 p2
    then (inr foreign_key_violation, db)
    else (inl {| command := "INSERT"; rowCount := 1;
                 rows := [Row_committeeId p1] |},
          set_committee_slots db
            (committee_slots db ++ [mk_committee_slots p1 p2 p3])).

(** [UPDATE committee SET total_slots = (total_slots + $2) WHERE
    committee_id = $1]; the driver writes an [undefined] or [null] parameter
    as [null]. *)
Definition add_total_slots (p1 : Z) (p2 : option Z) (c : committee_row)
  : committee_row :=
  if committee_id c =? p1
  then with_total_slots c (sql_add (total_slots c) p2)
  else c.

Definition sql_update_committee_total_slots (p1 : Z) (p2 : option Z)
  : statement :=
  fun db =>
    let t := map (add_total_slots p1 p2) (committee db) in
    if total_slots_not_null
       && existsb (fun c => (committee_id c =? p1) && is_null (total_slots c)) t
    then (inr not_null_violation, db)
    else (inl {| command := "UPDATE";
                 rowCount := length (filter (fun c => committee_id c =? p1)
                                       (committee db));
                 rows := [] |},
          set_committee db t).

(** [UPDATE committee_slots SET slot_requirements = $1 WHERE committee_id = $2
    and senate_division_short_name = $3] *)
Definition set_slot_requirements (p1 : Z) (p2 : Z) (p3 : string)
  (r : committee_slots_row) : committee_slots_row :=
  if slot_matches p2 p3 r then with_slot_requirements r p1 else r.

Definition sql_update_committee_slots (p1 : Z) (p2 : Z) (p3 : string)
  : statement :=
  fun db =>
    (inl {| command := "UPDATE";
            rowCount := length (filter (slot_matches p2 p3) (committee_slots db));
            rows := [] |},
     set_committee_slots db
       (map (set_slot_requirements p1 p2 p3) (committee_slots db))).

(** [SELECT $2-slot_requirements AS difference FROM committee_slots where
    committee_id=$1 AND senate_division_short_name=$3] *)
Definition sql_select_difference (p1 : Z) (p2 : Z) (p3 : string) : statement :=
  fun db =>
    let found := filter (slot_matches p1 p3) (committee_slots db) in
    (inl {| command := "SELECT";
            rowCount := length found;
            rows := map (fun r => Row_difference (p2 - slot_requirements r))
                      found |},
     db).

(** [DELETE FROM committee_slots WHERE committee_id = $1 AND
    senate_division_short_name = $2] *)
Definition sql_delete_committee_slots (p1 : Z) (p2 : string) : statement :=
  fun db =>
    (inl {| command := "DELETE";
            rowCount := length (filter (slot_matches p1 p2) (committee_slots db));
            rows := [] |},
     set_committee_slots db
       (filter (fun r => negb (slot_matches p1 p2 r)) (committee_slots db))).

(** [UPDATE committee SET name = $1, description = $2, total_slots = $3 WHERE
    committee_id = $4] *)
Definition set_committee_columns (p1 p2 : string) (p3 : Z) (p4 : Z)
  (c : committee_row) : committee_row :=
  if committee_id c =? p4
  then {| committee_id := committee_id c; name := p1; description := p2;
          total_slots := Some p3 |}
  else c.

Definition sql_update_committee (p1 p2 : string) (p3 : Z) (p4 : Z) : statement :=
  fun db =>
    let t := map (set_committee_columns p1 p2 p3 p4) (committee db) in
    if has_committee db p4 && committee_name_unique_violation t
    then (inr unique_violation, db)
    else (inl {| command := "UPDATE";
                 rowCount := length (filter (fun c => committee_id c =? p4)
                                       (committee db));
                 rows := [] |},
          set_committee db t).

(** ** The exported functions of [queries.js] *)

(** [slotDifference.difference]: the column of the row when the pre-read
    resolved; [undefined] on anything else, in particular on the error object
    the [catch] handler returned. *)
Definition difference_of (slotDifference : value + reason) : option Z :=
  match slotDifference with
  | inl (VRow (Row_difference d)) => Some d
  | _ => None
  end.

Definition addCommitteeSlots (committeeId : Z) (senateDivision : string)
  (slotRequirements : Z) : promise (list value) :=
  tx (batch
        [ one (sql_insert_committee_slots committeeId senateDivision
                 slotRequirements);
          result (sql_update_committee_total_slots committeeId
                    (Some slotRequirements)) ]).

Definition deleteSlotRequirement (committee_id : Z)
  (senate_division_short_name : string) : promise value :=
  settles
    (result (sql_delete_committee_slots committee_id
               senate_division_short_name)).

(** The statements of the transaction of [updateCommitteeSlots], for a given
    pre-read outcome. *)
Definition updateCommitteeSlots_tx (committeeId : Z) (senateDivision : string)
  (slotRequirements : Z) (slotDifference : value + reason)
  : promise (list value) :=
  tx (batch
        [ result (sql_update_committee_slots slotRequirements committeeId
                    senateDivision);
          result (sql_update_committee_total_slots committeeId
                    (difference_of slotDifference)) ]).

Definition updateCommitteeSlots (committeeId : Z) (senateDivision : string)
  (slotRequirements : Z) : promise (list value) :=
  slotDifference <-
    catch (settles (one (sql_select_difference committeeId slotRequirements
                           senateDivision)))
          (fun err => err) ;;
  updateCommitteeSlots_tx committeeId senateDivision slotRequirements
    slotDifference.

(** The callback of [updateCommittee] issues its statement on [connection],
    not on the transaction; with a single statement the outcome is the same. *)
Definition updateCommittee (id : Z) (name description : string) (slots : Z)
  : promise value :=
  tx (settles (result (sql_update_committee name description slots id))).

End Statements.

(** ** Integrity of a store *)

Fixpoint committee_ids_unique (t : list committee_row) : bool :=
  match t with
  | [] => true
  | c :: t' =>
      negb (existsb (fun c' => committee_id c' =? committee_id c) t')
      && committee_ids_unique t'
  end.

Fixpoint slot_keys_unique (t : list committee_slots_row) : bool :=
  match t with
  | [] => true
  | r :: t' =>
      negb (existsb (slot_matches (cs_committee_id r)
                       (cs_senate_division_short_name r)) t')
      && slot_keys_unique t'
  end.

Definition slots_reference (db : DB) : bool :=
  forallb (fun r => has_committee db (cs_committee_id r)
                    && has_senate_division db (cs_senate_division_short_name r))
    (committee_slots db).

Definition total_slots_present (total_slots_not_null : bool)
  (t : list committee_row) : bool :=
  negb total_slots_not_null
  || forallb (fun c => negb (is_null (total_slots c))) t.

(** Modelled from the spec: the table definitions are not among the source
    files.  A store is well formed when it satisfies the constraints of the
    persisted schema: [committee_id] is the primary key of [committee] and
    [name] is unique; the pair [(committee_id, senate_division_short_name)] is
    unique in [committee_slots] and both its columns are foreign keys; and
    [total_slots] holds no NULL when the column is declared NOT NULL. *)
Definition wf_db (total_slots_not_null : bool) (db : DB) : bool :=
  committee_ids_unique (committee db)
  && negb (committee_name_unique_violation (committee db))
  && slot_keys_unique (committee_slots db)
  && slots_reference db
  && total_slots_present total_slots_not_null (committee db).

(** The key of a slot row. *)
Definition slot_key (r : committee_slots_row) : Z * string :=
  (cs_committee_id r, cs_senate_division_short_name r).

(** ** The aggregate *)

Definition Zsum (l : list Z) : Z := fold_right Z.add 0 l.


(** The sum of [slot_requirements] over the rows of committee [cid]. *)
Fixpoint sum_slot_requirements (cid : Z) (t : list committee_slots_row) : Z :=
  match t with
  | [] => 0
  | r :: t' =>
      (if cs_committee_id r =? cid then slot_requirements r else 0)
      + sum_slot_requirements cid t'
  end.

Definition holds_total (a : option Z) (z : Z) : bool :=
  match a with
  | Some x => x =? z
  | None => false
  end.

(** Every committee's [total_slots] is the sum of its slot requirements. *)
Definition aggregate_consistent (db : DB) : bool :=
  forallb (fun c => holds_total (total_slots c)
                      (sum_slot_requirements (committee_id c)
                         (committee_slots db)))
    (committee db).

(** The [total_slots] values stored for committee [cid]. *)
Definition total_slots_of (db : DB) (cid : Z) : list (option Z) :=
  map total_slots (filter (fun c => committee_id c =? cid) (committee db)).

(** The [slot_requirements] values stored for the pair [(cid, sd)]. *)
Definition slot_requirements_of (db : DB) (cid : Z) (sd : string) : list Z :=
  map slot_requirements (filter (slot_matches cid sd) (committee_slots db)).

(** ** The statements each exported function issues *)

Module Exports.

(** The shape of a statement: its kind, its table and the columns it names. *)
Inductive sql : Type :=
| INSERT_INTO (table : string) (columns : list string)
| UPDATE_SET (table : string) (columns : list string)
| DELETE_FROM (table : string)
| SELECT_FROM (tables : list string).

Record export : Type := mk_export
  { fn : string;
    statements : list sql }.

(** A statement writes a column when it inserts a row into the column's
    table or names the column in its SET list. *)
Definition writes (table column : string) (s : sql) : bool :=
  match s with
  | INSERT_INTO t _ => String.eqb t table
  | UPDATE_SET t cols => String.eqb t table && existsb (String.eqb column) cols
  | DELETE_FROM _ => false
  | SELECT_FROM _ => false
  end.

Definition writes_total_slots (e : export) : bool :=
  existsb (writes "committee" "total_slots") (statements e).

Definition faculty_columns : list string :=
  ["full_name"; "email"; "job_title"; "phone_num"; "senate_division_short_name"].

(** Modelled from the spec: the SQL files behind [faculty.info] and
    [reports.divisionStats] are not among the source files; the specification
    describes both as read-only projections. *)
Definition read_only_projection : list sql := [SELECT_FROM []].

(** [module.exports] of [queries.js], in its order, each function with every
    statement it can issue. *)
Definition module_exports : list export :=
  [ mk_export "addCommittee"
      [INSERT_INTO "committee" ["name"; "description"; "total_slots"]];
    mk_export "addCommitteeAssignment"
      [INSERT_INTO "committee_assignment"
         ["email"; "committee_id"; "start_date"; "end_date"]];
    mk_export "addCommitteeSlots"
      [INSERT_INTO "committee_slots"
         ["committee_id"; "senate_division_short_name"; "slot_requirements"];
       UPDATE_SET "committee" ["total_slots"]];
    mk_export "addDepartmentAssociation"
      [INSERT_INTO "department_associations" ["email"; "department_id"]];
    mk_export "addFaculty"
      [INSERT_INTO "faculty" faculty_columns;
       INSERT_INTO "department_associations" ["email"; "department_id"]];
    mk_export "addSurveyChoice"
      [INSERT_INTO "survey_choice"
         ["choice_id"; "survey_date"; "email"; "committee_id"]];
    mk_export "addSurveyData"
      [INSERT_INTO "survey_data"
         ["survey_date"; "email"; "is_interested"; "expertise"]];
    mk_export "deleteCommitteeAssignment" [DELETE_FROM "committee_assignment"];
    mk_export "deleteSlotRequirement" [DELETE_FROM "committee_slots"];
    mk_export "getAllFaculty" [SELECT_FROM ["Faculty"]];
    mk_export "getCommittee" [SELECT_FROM ["committee"]];
    mk_export "getCommitteeAssignmentByCommittee"
      [SELECT_FROM ["committee_assignment"]];
    mk_export "getCommitteeAssignmentByFaculty"
      [SELECT_FROM ["committee_assignment"]];
    mk_export "getCommitteeInfo"
      [SELECT_FROM ["committee"; "committee_slots"; "committee_assignment";
                    "faculty"; "slot_stats"]];
    mk_export "getCommitteeSlotsByCommittee" [SELECT_FROM ["committee_slots"]];
    mk_export "getCommitteeSlotsBySenate" [SELECT_FROM ["committee_slots"]];
    mk_export "getCommittees" [SELECT_FROM ["committee"]];
    mk_export "getDepartment" [SELECT_FROM ["department"]];
    mk_export "getDepartmentAssociationsByDepartment"
      [SELECT_FROM ["department_associations"]];
    mk_export "getDepartmentAssociationsByFaculty"
      [SELECT_FROM ["department_associations"]];
    mk_export "getDepartments" [SELECT_FROM ["department"]];
    mk_export "getFaculty" [SELECT_FROM ["faculty"]];
    mk_export "getFacultyInfo" read_only_projection;
    mk_export "getSenateDivision" [SELECT_FROM ["senate_division"]];
    mk_export "getSenateDivisions" [SELECT_FROM ["senate_division"]];
    mk_export "getSenateDivisionStats" read_only_projection;
    mk_export "getSurveyChoice" [SELECT_FROM ["survey_choice"]];
    mk_export "getSurveyData" [SELECT_FROM ["survey_data"]];
    mk_export "updateCommittee"
      [UPDATE_SET "committee" ["name"; "description"; "total_slots"]];
    mk_export "updateCommitteeAssignment"
      [UPDATE_SET "committee_assignment" ["start_date"; "end_date"]];
    mk_export "updateCommitteeSlots"
      [SELECT_FROM ["committee_slots"];
       UPDATE_SET "committee_slots" ["slot_requirements"];
       UPDATE_SET "committee" ["total_slots"]];
    mk_export "updateDepartmentAssociations"
      [UPDATE_SET "department_associations" ["department_id"]];
    mk_export "updateFaculty"
      [UPDATE_SET "faculty"
         ["full_name"; "job_title"; "phone_num"; "senate_division_short_name"];
       DELETE_FROM "department_associations";
       INSERT_INTO "department_associations" ["email"; "department_id"]];
    mk_export "updateSurveyData"
      [UPDATE_SET "survey_data" ["is_interested"; "expertise"]] ].

(** The older connection module (a source file whose name is not known)
    exports three handlers that query the store themselves. *)
Definition connection_exports : list export :=
  [ mk_export "getFaculty" [SELECT_FROM ["users"]];
    mk_export "addFaculty"
      [INSERT_INTO "users" ["first_name"; "last_name"; "phone_number"]];
    mk_export "getCommittees" [SELECT_FROM ["all_committees"]] ].

(** The slot-accounting functions that maintain the aggregate. *)
Definition slot_accounting : list string :=
  ["addCommitteeSlots"; "updateCommitteeSlots"].

Definition is_slot_accounting (e : export) : bool :=
  existsb (String.eqb (fn e)) slot_accounting.

End Exports.

(** ** Reads of the slot-accounting tables *)

(** [connection.any] on a SELECT whose rows have the shape [R]: the rows,
    whatever their number. *)
Definition select_any {R} (q : DB -> list R) : promise (list R) :=
  fun db => (Resolved (q db), db).

(** [connection.one] on a SELECT whose rows have the shape [R]. *)
Definition select_one {R} (q : DB -> list R) : promise R :=
  fun db =>
    match q db with
    | [x] => (Resolved x, db)
    | [] => (Rejected (QueryError (QueryResultError noData)), db)
    | _ :: _ :: _ => (Rejected (QueryError (QueryResultError multiple)), db)
    end.

(** [SELECT committee_id, name, description, total_slots FROM committee WHERE
    committee_id=$1] *)
Definition sql_select_committee (p1 : Z) (db : DB) : list committee_row :=
  filter (fun c => committee_id c =? p1) (committee db).

Definition getCommittee (id : Z) : promise committee_row :=
  select_one (sql_select_committee id).

(** A row of [getCommitteeSlotsByCommittee]. *)
Record division_slots : Type := mk_division_slots
  { ds_senate_division_short_name : string;
    ds_slot_requirements : Z }.

(** [SELECT senate_division_short_name, slot_requirements FROM
    committee_slots where committee_id=$1] *)
Definition sql_select_slots_by_committee (p1 : Z) (db : DB)
  : list division_slots :=
  map (fun r => mk_division_slots (cs_senate_division_short_name r)
                  (slot_requirements r))
    (filter (fun r => cs_committee_id r =? p1) (committee_slots db)).

Definition getCommitteeSlotsByCommittee (id : Z)
  : promise (list division_slots) :=
  select_any (sql_select_slots_by_committee id).

(** A row of [getCommitteeSlotsBySenate]. *)
Record committee_share : Type := mk_committee_share
  { sh_committee_id : Z;
    sh_slot_requirements : Z }.

(** [SELECT committee_id, slot_requirements FROM committee_slots where
    senate_division_short_name=$1] *)
Definition sql_select_slots_by_senate (p1 : string) (db : DB)
  : list committee_share :=
  map (fun r => mk_committee_share (cs_committee_id r) (slot_requirements r))
    (filter (fun r => (cs_senate_division_short_name r =? p1)%string)
       (committee_slots db)).

Definition getCommitteeSlotsBySenate (senateDivision : string)
  : promise (list committee_share) :=
  select_any (sql_select_slots_by_senate senateDivision).

(** ** Adding a committee *)

(** [INSERT INTO committee(name, description, total_slots) VALUES($1, $2, $3)
    RETURNING committee_id as "committeeId"].  The statement gives no
    [committee_id]: the store supplies it from the column's default, which the
    source files do not show; [generated] is that value. *)
Definition sql_insert_committee (generated : Z) (p1 p2 : string) (p3 : Z)
  : statement :=
  fun db =>
    let t := (committee db ++ [mk_committee generated p1 p2 (Some p3)])%list in
    if has_committee db generated || committee_name_unique_violation t
    then (inr unique_violation, db)
    else (inl {| command := "INSERT"; rowCount := 1;
                 rows := [Row_committeeId generated] |},
          set_committee db t).

Definition addCommittee (generated : Z) (name description : string)
  (slots : Z) : promise value :=
  settles (one (sql_insert_committee generated name description slots)).

(** Does a committee other than [id] carry the name [nm]? *)
Definition name_taken_by_other (db : DB) (id : Z) (nm : string) : bool :=
  existsb (fun c => negb (committee_id c =? id) && (name c =? nm)%string)
    (committee db).

(** Does any committee carry the name [nm]? *)
Definition name_taken (db : DB) (nm : string) : bool :=
  existsb (fun c => (name c =? nm)%string) (committee db).

(** ** The committee router *)


(** [!v] for a string of the request, [None] when the property is missing. *)
Definition not_string (v : option string) : bool :=
  match v with
  | Some s => (s =? "")%string
  | None => true
  end.


Definition string_of (v : option string) : string :=
  match v with Some s => s | None => "" end.

(** What [res.send] is given. *)
Inductive sent (A : Type) : Type :=
| send_nothing
| send_message (message : string)
| send_error (error : string)
| send_data (data : A).
Arguments send_nothing {A}.
Arguments send_message {A} message.
Arguments send_error {A} error.
Arguments send_data {A} data.

Record response (A : Type) : Type := mk_response
  { status : nat;
    body : sent A }.
Arguments mk_response {A} status body.
Arguments status {A} r.
Arguments body {A} r.

Definition bad_request {A} : response A :=
  mk_response 400 (send_message "400 Bad Request").






(** ** Department associations *)

(** A row of [department_associations(email, department_id)]. *)
Record department_associations_row : Type := mk_department_associations
  { da_email : string;
    da_department_id : Z }.

(** What the grouping functions return: the initial [[]] of the [reduce], or
    the object built for the last key seen. *)
Inductive department_faculty : Type :=
| no_department
| department (department_id : Z) (emails : list string).

Inductive faculty_departments : Type :=
| no_faculty
| faculty (email : string) (department_ids : list Z).

(** One step of the [reduce] of [groupDepartmentFacultyById]:
    [acc.department_id] is undefined on the initial array. *)
Definition department_step (acc : department_faculty)
  (cur : department_associations_row) : department_faculty :=
  match acc with
  | department d es =>
      if d =? da_department_id cur
      then department d (es ++ [da_email cur])
      else department (da_department_id cur) [da_email cur]
  | no_department => department (da_department_id cur) [da_email cur]
  end.

Definition groupDepartmentFacultyById (arr : list department_associations_row)
  : department_faculty :=
  fold_left department_step arr no_department.

Definition faculty_step (acc : faculty_departments)
  (cur : department_associations_row) : faculty_departments :=
  match acc with
  | faculty e ds =>
      if (e =? da_email cur)%string
      then faculty e (ds ++ [da_department_id cur])
      else faculty (da_email cur) [da_department_id cur]
  | no_faculty => faculty (da_email cur) [da_department_id cur]
  end.

Definition groupDepartmentIdByFaculty (arr : list department_associations_row)
  : faculty_departments :=
  fold_left faculty_step arr no_faculty.

(** [SELECT email, department_id FROM department_associations WHERE
    department_id=$1], then the grouping; the table is the store here. *)
Definition getDepartmentAssociationsByDepartment (id : Z)
  (department_associations : list department_associations_row)
  : department_faculty :=
  groupDepartmentFacultyById
    (filter (fun r => da_department_id r =? id) department_associations).

(** [SELECT email, department_id FROM department_associations WHERE
    email=$1], then the grouping. *)
Definition getDepartmentAssociationsByFaculty (email : string)
  (department_associations : list department_associations_row)
  : faculty_departments :=
  groupDepartmentIdByFaculty
    (filter (fun r => (da_email r =? email)%string) department_associations).

(** [data.length === 0]: only the array has a length. *)
Definition faculty_length_is_0 (data : faculty_departments) : bool :=
  match data with
  | no_faculty => true
  | faculty _ _ => false
  end.

(** [router.get('/faculty/:email')].  The read does not reject here, so the
    handler's [catch] is not reached. *)
Definition get_faculty (params_email : option string)
  (department_associations : list department_associations_row)
  : response faculty_departments :=
  if not_string params_email then mk_response 400 (send_message "400 Bad Request")
  else
    let data := getDepartmentAssociationsByFaculty (string_of params_email)
                  department_associations in
    if faculty_length_is_0 data then mk_response 404 send_nothing
    else mk_response 200 (send_data data).

(** ** The connection of the process *)

(** The module variable [db] of the connection module and the connection
    objects [pgp(config)] has built so far, each a fresh object. *)
Record connection_module : Type := mk_connection_module
  { db_handle : option nat;
    built : nat }.

(** [loadDatabaseConnection]: builds the connection on first use. *)
Definition loadDatabaseConnection (m : connection_module)
  : nat * connection_module :=
  match db_handle m with
  | Some c => (c, m)
  | None => (built m, {| db_handle := Some (built m); built := S (built m) |})
  end.

(** [k] calls in a row, with what each returned. *)
Fixpoint load_times (k : nat) (m : connection_module)
  : list nat * connection_module :=
  match k with
  | O => ([], m)
  | S k' =>
      let (c, m1) := loadDatabaseConnection m in
      let (cs, m2) := load_times k' m1 in
      (c :: cs, m2)
  end.

(** ** Stores of the scenarios *)

(** Committee 1 with [total_slots = 20] and no slot rows. *)
Definition db0 : DB :=
  {| committee := [ mk_committee 1 "Linux Committee" "tux-everywhere" (Some 20) ];
     committee_slots := [];
     senate_division := [ mk_senate_division "AO" "All Others";
                          mk_senate_division "BQ" "Basic Sciences" ] |}.

(** Committee 1 with the slot [(1, AO, 5)] and [total_slots = 5]; committee 2
    with two slots. *)
Definition db1 : DB :=
  {| committee := [ mk_committee 1 "Linux Committee" "tux-everywhere" (Some 5);
                    mk_committee 2 "Library Committee" "books" (Some 7) ];
     committee_slots := [ mk_committee_slots 1 "AO" 5;
                          mk_committee_slots 2 "AO" 3;
                          mk_committee_slots 2 "BQ" 4 ];
     senate_division := [ mk_senate_division "AO" "All Others";
                          mk_senate_division "BQ" "Basic Sciences" ] |}.

(** * Properties *)

Example scenario_create :
  addCommitteeSlots true 1 "AO" 5 db0 =
  (Resolved [ VRow (Row_committeeId 1); VResult (mk_Result "UPDATE" 1 []) ],
   {| committee := [ mk_committee 1 "Linux Committee" "tux-everywhere" (Some 25) ];
      committee_slots := [ mk_committee_slots 1 "AO" 5 ];
      senate_division := senate_division db0 |}).
Proof. reflexivity. Qed.

Example scenario_update :
  updateCommitteeSlots true 1 "AO" 3 
    {| committee := [ mk_committee 1 "Linux Committee" "tux-everywhere" (Some 25) ];
       committee_slots := [ mk_committee_slots 1 "AO" 5 ];
       senate_division := senate_division db0 |} =
  (Resolved [ VResult (mk_Result "UPDATE" 1 []); VResult (mk_Result "UPDATE" 1 []) ],
   {| committee := [ mk_committee 1 "Linux Committee" "tux-everywhere" (Some 23) ];
      committee_slots := [ mk_committee_slots 1 "AO" 3 ];
      senate_division := senate_division db0 |}).
Proof. reflexivity. Qed.

Example scenario_update_missing :
  updateCommitteeSlots true 999 "ZZ" 3 db0 =
  (Resolved [ VResult (mk_Result "UPDATE" 0 []); VResult (mk_Result "UPDATE" 0 []) ],
   db0).
Proof. reflexivity. Qed.

(** ** Rows and keys *)

Lemma slot_matches_true cid sd r :
  slot_matches cid sd r = true <->
  cs_committee_id r = cid /\ cs_senate_division_short_name r = sd.
Proof.
  unfold slot_matches.
  rewrite andb_true_iff, Z.eqb_eq, String.eqb_eq. tauto.
Qed.

Lemma slot_matches_key r :
  slot_matches (cs_committee_id r) (cs_senate_division_short_name r) r = true.
Proof. apply slot_matches_true; split; reflexivity. Qed.

Lemma existsb_false_filter {A} (f : A -> bool) l :
  existsb f l = false -> filter f l = [].
Proof.
  induction l as [|a l IH]; simpl; intros H; [reflexivity|].
  apply orb_false_iff in H as [Ha Hl]. rewrite Ha. auto.
Qed.

Lemma existsb_false_In {A} (f : A -> bool) l x :
  existsb f l = false -> In x l -> f x = false.
Proof.
  intros H Hx. destruct (f x) eqn:E; [|reflexivity].
  assert (existsb f l = true) by (apply existsb_exists; eauto).
  congruence.
Qed.

Lemma slot_keys_unique_filter t r :
  slot_keys_unique t = true -> In r t ->
  filter (slot_matches (cs_committee_id r) (cs_senate_division_short_name r)) t
  = [r].
Proof.
  induction t as [|r0 t IH]; simpl; intros U Hin; [contradiction|].
  apply andb_true_iff in U as [U0 U]. apply negb_true_iff in U0.
  destruct Hin as [->|Hin].
  - rewrite slot_matches_key. f_equal. now apply existsb_false_filter.
  - destruct (slot_matches _ _ r0) eqn:E.
    + apply slot_matches_true in E as [E1 E2].
      pose proof (existsb_false_In _ _ _ U0 Hin) as F.
      rewrite E1, E2, slot_matches_key in F. discriminate.
    + auto.
Qed.

Lemma slot_keys_unique_match t cid sd c :
  slot_keys_unique t = true -> In (mk_committee_slots cid sd c) t ->
  filter (slot_matches cid sd) t = [mk_committee_slots cid sd c].
Proof. intros U Hin. exact (slot_keys_unique_filter _ _ U Hin). Qed.

Lemma committee_ids_unique_filter t c :
  committee_ids_unique t = true -> In c t ->
  filter (fun c' => committee_id c' =? committee_id c) t = [c].
Proof.
  induction t as [|c0 t IH]; simpl; intros U Hin; [contradiction|].
  apply andb_true_iff in U as [U0 U]. apply negb_true_iff in U0.
  destruct Hin as [->|Hin].
  - rewrite Z.eqb_refl. f_equal. now apply existsb_false_filter.
  - destruct (committee_id c0 =? committee_id c) eqn:E.
    + apply Z.eqb_eq in E.
      pose proof (existsb_false_In _ _ _ U0 Hin) as F. simpl in F.
      rewrite E, Z.eqb_refl in F. discriminate.
    + auto.
Qed.

Lemma has_committee_In db cid :
  has_committee db cid = true ->
  exists c, In c (committee db) /\ committee_id c = cid.
Proof.
  unfold has_committee. intros H. apply existsb_exists in H as (c & Hc & E).
  apply Z.eqb_eq in E. eauto.
Qed.

Lemma wf_db_parts nn db :
  wf_db nn db = true ->
  committee_ids_unique (committee db) = true /\
  slot_keys_unique (committee_slots db) = true /\
  slots_reference db = true /\
  total_slots_present nn (committee db) = true.
Proof.
  unfold wf_db. rewrite !andb_true_iff. tauto.
Qed.

Lemma slots_reference_committee db r :
  slots_reference db = true -> In r (committee_slots db) ->
  has_committee db (cs_committee_id r) = true.
Proof.
  unfold slots_reference. rewrite forallb_forall. intros H Hin.
  apply H in Hin. now apply andb_true_iff in Hin.
Qed.

(** ** What the transactions compute *)

(** No NULL reaches [total_slots] when a number is added to stored numbers. *)
Lemma add_total_slots_no_null nn cid d t :
  total_slots_present nn t = true ->
  nn && existsb (fun c => (committee_id c =? cid) && is_null (total_slots c))
          (map (add_total_slots cid (Some d)) t) = false.
Proof.
  unfold total_slots_present. destruct nn; simpl; [|reflexivity].
  intros H. rewrite forallb_forall in H.
  destruct (existsb _ _) eqn:E; [|reflexivity].
  apply existsb_exists in E as (c' & Hc' & E).
  apply in_map_iff in Hc' as (c & <- & Hc).
  apply H in Hc. unfold add_total_slots in E.
  destruct (committee_id c =? cid) eqn:Ec; simpl in E.
  - destruct (total_slots c); simpl in *; [|discriminate].
    now rewrite andb_false_r in E.
  - rewrite Ec in E. discriminate.
Qed.

Lemma updateCommitteeSlots_tx_run nn cid sd n s db :
  updateCommitteeSlots_tx nn cid sd n s db =
  let k := length (filter (slot_matches cid sd) (committee_slots db)) in
  let t := map (add_total_slots cid (difference_of s)) (committee db) in
  if nn && existsb (fun c => (committee_id c =? cid) && is_null (total_slots c)) t
  then (Rejected (BatchError
                    [ fulfilled (VResult (mk_Result "UPDATE" k []));
                      failed (DatabaseError not_null_violation) ]),
        db)
  else (Resolved
          [ VResult (mk_Result "UPDATE" k []);
            VResult (mk_Result "UPDATE"
                       (length (filter (fun c => committee_id c =? cid)
                                  (committee db))) []) ],
        {| committee := t;
           committee_slots :=
             map (set_slot_requirements n cid sd) (committee_slots db);
           senate_division := senate_division db |}).
Proof.
  unfold updateCommitteeSlots_tx, tx, batch, batch_run, result,
    sql_update_committee_slots, sql_update_committee_total_slots. simpl.
  destruct (nn && _); reflexivity.
Qed.

Lemma addCommitteeSlots_run nn cid sd n db :
  addCommitteeSlots nn cid sd n db =
  let t := map (add_total_slots cid (Some n)) (committee db) in
  if has_slot db cid sd
  then (Rejected (BatchError
                    [ failed (DatabaseError unique_violation);
                      failed (DatabaseError in_failed_sql_transaction) ]),
        db)
  else if negb (has_committee db cid) || negb (has_senate_division db sd)
  then (Rejected (BatchError
                    [ failed (DatabaseError foreign_key_violation);
                      failed (DatabaseError in_failed_sql_transaction) ]),
        db)
  else if nn && existsb (fun c => (committee_id c =? cid)
                                  && is_null (total_slots c)) t
  then (Rejected (BatchError
                    [ fulfilled (VRow (Row_committeeId cid));
                      failed (DatabaseError not_null_violation) ]),
        db)
  else (Resolved
          [ VRow (Row_committeeId cid);
            VResult (mk_Result "UPDATE"
                       (length (filter (fun c => committee_id c =? cid)
                                  (committee db))) []) ],
        {| committee := t;
           committee_slots :=
             committee_slots db ++ [mk_committee_slots cid sd n];
           senate_division := senate_division db |}).
Proof.
  unfold addCommitteeSlots, tx, batch, batch_run, one, result,
    sql_insert_committee_slots, sql_update_committee_total_slots,
    committee_slots_unique_violation, committee_slots_fk_violation. simpl.
  destruct (has_slot db cid sd); [reflexivity|].
  destruct (negb _ || negb _); [reflexivity|]. simpl.
  destruct (nn && _); reflexivity.
Qed.

Lemma pre_read_found cid sd n c db :
  slot_keys_unique (committee_slots db) = true ->
  In (mk_committee_slots cid sd c) (committee_slots db) ->
  catch (settles (one (sql_select_difference cid n sd))) (fun err => err) db
  = (Resolved (inl (VRow (Row_difference (n - c)))), db).
Proof.
  intros U Hin. unfold catch, settles, one, sql_select_difference. simpl.
  rewrite (slot_keys_unique_match _ _ _ _ U Hin). reflexivity.
Qed.

Lemma pre_read_missing cid sd n db :
  has_slot db cid sd = false ->
  settles (one (sql_select_difference cid n sd)) db
  = (Rejected (QueryError (QueryResultError noData)), db).
Proof.
  intros H. unfold settles, one, sql_select_difference. simpl.
  rewrite (existsb_false_filter _ _ H). reflexivity.
Qed.

(** ** Sums of slot requirements *)

Lemma sum_slot_requirements_app cid t1 t2 :
  sum_slot_requirements cid (t1 ++ t2)
  = sum_slot_requirements cid t1 + sum_slot_requirements cid t2.
Proof.
  induction t1 as [|r t1 IH]; simpl; [reflexivity|]. rewrite IH. lia.
Qed.

(** Overwriting the requirement of the rows of [(cid, sd)] moves the sum of
    committee [cid] by the differences, and no other sum. *)
Lemma sum_slot_requirements_set cid' n cid sd t :
  sum_slot_requirements cid' (map (set_slot_requirements n cid sd) t)
  = sum_slot_requirements cid' t
    + (if cid =? cid'
       then Zsum (map (fun r => n - slot_requirements r)
                    (filter (slot_matches cid sd) t))
       else 0).
Proof.
  induction t as [|r t IH]; simpl.
  - destruct (cid =? cid'); reflexivity.
  - rewrite IH. unfold set_slot_requirements.
    destruct (slot_matches cid sd r) eqn:E; simpl.
    + apply slot_matches_true in E as [E _]. rewrite E.
      destruct (cid =? cid'); simpl; lia.
    + destruct (cid =? cid'); lia.
Qed.

(** Deleting the rows of [(cid, sd)] lowers the sum of committee [cid] by
    their requirements, and no other sum. *)
Lemma sum_slot_requirements_delete cid' cid sd t :
  sum_slot_requirements cid' (filter (fun r => negb (slot_matches cid sd r)) t)
  = sum_slot_requirements cid' t
    - (if cid =? cid'
       then Zsum (map slot_requirements (filter (slot_matches cid sd) t))
       else 0).
Proof.
  induction t as [|r t IH]; simpl.
  - destruct (cid =? cid'); reflexivity.
  - destruct (slot_matches cid sd r) eqn:E; simpl; rewrite IH.
    + apply slot_matches_true in E as [E _]. rewrite E.
      destruct (cid =? cid'); simpl; lia.
    + destruct (cid =? cid'); lia.
Qed.

Lemma holds_total_true a z : holds_total a z = true <-> a = Some z.
Proof.
  destruct a as [x|]; simpl.
  - rewrite Z.eqb_eq. split; congruence.
  - split; discriminate.
Qed.

Lemma aggregate_consistent_spec db :
  aggregate_consistent db = true <->
  forall c, In c (committee db) ->
            total_slots c
            = Some (sum_slot_requirements (committee_id c) (committee_slots db)).
Proof.
  unfold aggregate_consistent. rewrite forallb_forall.
  split; intros H c Hc; apply holds_total_true; auto.
Qed.

Lemma committee_id_add_total_slots cid p c :
  committee_id (add_total_slots cid p c) = committee_id c.
Proof. unfold add_total_slots. destruct (_ =? _); reflexivity. Qed.

(** Adding [d] to the aggregate of [cid] while the sum of [cid] moves by [d]
    keeps every committee's aggregate equal to its sum. *)
Lemma aggregate_consistent_shift db cid d slots' :
  aggregate_consistent db = true ->
  (forall cid', sum_slot_requirements cid' slots'
                = sum_slot_requirements cid' (committee_slots db)
                  + (if cid =? cid' then d else 0)) ->
  aggregate_consistent
    {| committee := map (add_total_slots cid (Some d)) (committee db);
       committee_slots := slots';
       senate_division := senate_division db |} = true.
Proof.
  rewrite !aggregate_consistent_spec. simpl. intros H S c' Hc'.
  apply in_map_iff in Hc' as (c & <- & Hc).
  rewrite committee_id_add_total_slots, S.
  unfold add_total_slots. rewrite (Z.eqb_sym cid).
  destruct (committee_id c =? cid); simpl.
  - rewrite (H c Hc). reflexivity.
  - rewrite (H c Hc). f_equal. lia.
Qed.

Lemma has_slot_In db cid sd :
  has_slot db cid sd = true ->
  exists c, In (mk_committee_slots cid sd c) (committee_slots db).
Proof.
  unfold has_slot. intros H. apply existsb_exists in H as (r & Hr & E).
  apply slot_matches_true in E as [E1 E2]. exists (slot_requirements r).
  destruct r; simpl in *; subst; assumption.
Qed.

Lemma In_has_slot db cid sd c :
  In (mk_committee_slots cid sd c) (committee_slots db) ->
  has_slot db cid sd = true.
Proof.
  intros H. apply existsb_exists. eexists; split; [exact H|].
  apply slot_matches_true; split; reflexivity.
Qed.

(** The update of an existing slot of a well-formed store, in full. *)
Lemma updateCommitteeSlots_found nn db cid sd n c :
  wf_db nn db = true ->
  In (mk_committee_slots cid sd c) (committee_slots db) ->
  updateCommitteeSlots nn cid sd n db =
  (Resolved
     [ VResult (mk_Result "UPDATE" 1 []);
       VResult (mk_Result "UPDATE"
                  (length (filter (fun c' => committee_id c' =? cid)
                             (committee db))) []) ],
   {| committee := map (add_total_slots cid (Some (n - c))) (committee db);
      committee_slots :=
        map (set_slot_requirements n cid sd) (committee_slots db);
      senate_division := senate_division db |}).
Proof.
  intros W Hin. apply wf_db_parts in W as (_ & U & _ & P).
  unfold updateCommitteeSlots, bind.
  rewrite (pre_read_found _ _ n _ _ U Hin), updateCommitteeSlots_tx_run.
  cbv zeta. simpl difference_of.
  rewrite (add_total_slots_no_null _ _ _ _ P).
  rewrite (slot_keys_unique_match _ _ _ _ U Hin). reflexivity.
Qed.

(** A committee that a slot row references is stored exactly once. *)
Lemma referenced_committee_once nn db cid sd c :
  wf_db nn db = true ->
  In (mk_committee_slots cid sd c) (committee_slots db) ->
  exists ch, filter (fun c' => committee_id c' =? cid) (committee db) = [ch]
             /\ In ch (committee db) /\ committee_id ch = cid.
Proof.
  intros W Hin. apply wf_db_parts in W as (U & _ & R & _).
  pose proof (slots_reference_committee _ _ R Hin) as Hc. simpl in Hc.
  apply has_committee_In in Hc as (ch & Hch & E).
  exists ch. split; [|auto]. subst cid.
  now apply committee_ids_unique_filter.
Qed.

(** ** The operations keep a store well formed *)

Lemma committee_ids_unique_NoDup t :
  committee_ids_unique t = true <-> NoDup (map committee_id t).
Proof.
  induction t as [|c t IH]; simpl.
  - split; [constructor|reflexivity].
  - rewrite andb_true_iff, negb_true_iff, NoDup_cons_iff, IH.
    assert (existsb (fun c' => committee_id c' =? committee_id c) t = false
            <-> ~ In (committee_id c) (map committee_id t)) as ->; [|tauto].
    rewrite <- not_true_iff_false, existsb_exists, in_map_iff.
    split; intros H (c' & A & B); apply H; exists c'.
    + split; [assumption|]. apply Z.eqb_eq. assumption.
    + apply Z.eqb_eq in B. split; assumption.
Qed.

Lemma slot_keys_unique_NoDup t :
  slot_keys_unique t = true <-> NoDup (map slot_key t).
Proof.
  induction t as [|r t IH]; simpl.
  - split; [constructor|reflexivity].
  - rewrite andb_true_iff, negb_true_iff, NoDup_cons_iff, IH.
    assert (existsb (slot_matches (cs_committee_id r)
                       (cs_senate_division_short_name r)) t = false
            <-> ~ In (slot_key r) (map slot_key t)) as ->; [|tauto].
    rewrite <- not_true_iff_false, existsb_exists, in_map_iff.
    split; intros H (r' & A & B); apply H; exists r'.
    + split; [assumption|]. apply slot_matches_true.
      unfold slot_key in A. split; congruence.
    + apply slot_matches_true in B as [B1 B2].
      split; [|assumption]. unfold slot_key. congruence.
Qed.

Lemma NoDup_map_filter {A B} (f : A -> B) (p : A -> bool) l :
  NoDup (map f l) -> NoDup (map f (filter p l)).
Proof.
  induction l as [|a l IH]; simpl; intros H; [assumption|].
  apply NoDup_cons_iff in H as [H1 H2].
  destruct (p a); simpl; [|auto].
  apply NoDup_cons_iff. split; [|auto].
  rewrite in_map_iff in *. intros (x & E & Hx). apply H1.
  exists x. apply filter_In in Hx as [Hx _]. auto.
Qed.

Lemma map_committee_id_add_total_slots cid p t :
  map committee_id (map (add_total_slots cid p) t) = map committee_id t.
Proof.
  rewrite map_map. apply map_ext. intros c.
  apply committee_id_add_total_slots.
Qed.

Lemma map_name_add_total_slots cid p t :
  map name (map (add_total_slots cid p) t) = map name t.
Proof.
  rewrite map_map. apply map_ext. intros c.
  unfold add_total_slots. destruct (_ =? _); reflexivity.
Qed.

Lemma map_slot_key_set_slot_requirements n cid sd t :
  map slot_key (map (set_slot_requirements n cid sd) t) = map slot_key t.
Proof.
  rewrite map_map. apply map_ext. intros r.
  unfold set_slot_requirements. destruct (slot_matches _ _ _); reflexivity.
Qed.

Lemma has_committee_ids db db' cid :
  map committee_id (committee db') = map committee_id (committee db) ->
  has_committee db' cid = has_committee db cid.
Proof.
  unfold has_committee. intros E.
  assert (forall t, existsb (fun c => committee_id c =? cid) t
                    = existsb (fun x => x =? cid) (map committee_id t)) as M.
  { induction t as [|c t IH]; simpl; [reflexivity|]. now rewrite IH. }
  now rewrite !M, E.
Qed.

Lemma total_slots_present_add nn cid d t :
  total_slots_present nn t = true ->
  total_slots_present nn (map (add_total_slots cid (Some d)) t) = true.
Proof.
  unfold total_slots_present. destruct nn; simpl; [|reflexivity].
  rewrite !forallb_forall. intros H c' Hc'.
  apply in_map_iff in Hc' as (c & <- & Hc). apply H in Hc.
  unfold add_total_slots. destruct (_ =? _); [|assumption].
  destruct (total_slots c); [reflexivity|discriminate].
Qed.

(** The columns of the keys and constraints are untouched when only
    [total_slots] and [slot_requirements] are rewritten. *)
Lemma wf_db_rewritten nn db cid d slots' :
  wf_db nn db = true ->
  slot_keys_unique slots' = true ->
  (forall r, In r slots' ->
             has_committee db (cs_committee_id r) = true /\
             has_senate_division db (cs_senate_division_short_name r) = true) ->
  wf_db nn {| committee := map (add_total_slots cid (Some d)) (committee db);
              committee_slots := slots';
              senate_division := senate_division db |} = true.
Proof.
  unfold wf_db. rewrite !andb_true_iff. intros ((((U & N) & _) & _) & P) K R.
  repeat split.
  - simpl. apply committee_ids_unique_NoDup.
    rewrite map_committee_id_add_total_slots.
    now apply committee_ids_unique_NoDup.
  - simpl. unfold committee_name_unique_violation in *.
    now rewrite map_name_add_total_slots.
  - exact K.
  - unfold slots_reference. simpl. apply forallb_forall. intros r Hr.
    destruct (R r Hr) as [R1 R2]. apply andb_true_iff. split.
    + erewrite has_committee_ids; [exact R1|].
      simpl. apply map_committee_id_add_total_slots.
    + exact R2.
  - simpl. now apply total_slots_present_add.
Qed.

Lemma slots_reference_In db r :
  slots_reference db = true -> In r (committee_slots db) ->
  has_committee db (cs_committee_id r) = true /\
  has_senate_division db (cs_senate_division_short_name r) = true.
Proof.
  unfold slots_reference. rewrite forallb_forall. intros H Hin.
  apply andb_true_iff. auto.
Qed.

Lemma addCommitteeSlots_wf nn db cid sd n :
  wf_db nn db = true -> wf_db nn (snd (addCommitteeSlots nn cid sd n db)) = true.
Proof.
  intros W. rewrite addCommitteeSlots_run. cbv zeta.
  destruct (has_slot db cid sd) eqn:S; [exact W|].
  destruct (negb _ || negb _) eqn:F; [exact W|].
  destruct (nn && _); [exact W|]. simpl.
  apply orb_false_iff in F as [F1 F2].
  apply negb_false_iff in F1, F2.
  pose proof (wf_db_parts _ _ W) as (_ & U & R & _).
  apply wf_db_rewritten; [exact W| |].
  - apply slot_keys_unique_NoDup. rewrite map_app. simpl.
    apply NoDup_app.
    + now apply slot_keys_unique_NoDup.
    + repeat constructor. intros [].
    + intros k Hk [<-|[]]. apply in_map_iff in Hk as (r & E & Hr).
      pose proof (existsb_false_In _ _ _ S Hr) as M.
      unfold slot_key in E. simpl in E. injection E as E1 E2.
      assert (slot_matches cid sd r = true)
        by (apply slot_matches_true; auto).
      congruence.
  - intros r Hr. apply in_app_iff in Hr as [Hr|[<-|[]]].
    + now apply slots_reference_In.
    + simpl. auto.
Qed.

Lemma updateCommitteeSlots_wf nn db cid sd n :
  wf_db nn db = true -> has_slot db cid sd = true ->
  wf_db nn (snd (updateCommitteeSlots nn cid sd n db)) = true.
Proof.
  intros W S. apply has_slot_In in S as (c & Hin).
  rewrite (updateCommitteeSlots_found _ _ _ _ n _ W Hin). simpl.
  pose proof (wf_db_parts _ _ W) as (_ & U & R & _).
  apply wf_db_rewritten; [exact W| |].
  - apply slot_keys_unique_NoDup.
    rewrite map_slot_key_set_slot_requirements.
    now apply slot_keys_unique_NoDup.
  - intros r' Hr'. apply in_map_iff in Hr' as (r & <- & Hr).
    pose proof (slots_reference_In _ _ R Hr) as Href.
    unfold set_slot_requirements.
    destruct (slot_matches cid sd r); exact Href.
Qed.

Lemma deleteSlotRequirement_wf nn db cid sd :
  wf_db nn db = true -> wf_db nn (snd (deleteSlotRequirement cid sd db)) = true.
Proof.
  unfold wf_db. simpl. rewrite !andb_true_iff.
  intros ((((U & N) & K) & R) & P). repeat split; try assumption.
  - apply slot_keys_unique_NoDup, NoDup_map_filter.
    now apply slot_keys_unique_NoDup.
  - unfold slots_reference in *. simpl. rewrite forallb_forall in *.
    intros r Hr. apply filter_In in Hr as [Hr _]. now apply R.
Qed.

(** ** The aggregate under the three operations *)

Lemma addCommitteeSlots_aggregate nn db cid sd n :
  aggregate_consistent db = true ->
  aggregate_consistent (snd (addCommitteeSlots nn cid sd n db)) = true.
Proof.
  intros A. rewrite addCommitteeSlots_run. cbv zeta.
  destruct (has_slot db cid sd); [exact A|].
  destruct (negb _ || negb _); [exact A|].
  destruct (nn && _); [exact A|]. simpl.
  apply aggregate_consistent_shift; [exact A|].
  intros cid'. rewrite sum_slot_requirements_app. simpl. lia.
Qed.

Lemma updateCommitteeSlots_aggregate nn db cid sd n :
  wf_db nn db = true -> aggregate_consistent db = true ->
  has_slot db cid sd = true ->
  aggregate_consistent (snd (updateCommitteeSlots nn cid sd n db)) = true.
Proof.
  intros W A S. apply has_slot_In in S as (c & Hin).
  rewrite (updateCommitteeSlots_found _ _ _ _ n _ W Hin). simpl.
  apply aggregate_consistent_shift; [exact A|].
  intros cid'. rewrite sum_slot_requirements_set.
  apply wf_db_parts in W as (_ & U & _).
  rewrite (slot_keys_unique_match _ _ _ _ U Hin). simpl.
  destruct (cid =? cid'); lia.
Qed.

Lemma Zsum_zero l : (forall x, In x l -> x = 0) -> Zsum l = 0.
Proof.
  induction l as [|x l IH]; simpl; intros H; [reflexivity|].
  rewrite (H x), IH; auto.
Qed.

Lemma deleteSlotRequirement_aggregate nn db cid sd :
  wf_db nn db = true -> aggregate_consistent db = true ->
  (aggregate_consistent (snd (deleteSlotRequirement cid sd db)) = true <->
   forall r, In r (committee_slots db) -> slot_matches cid sd r = true ->
             slot_requirements r = 0).
Proof.
  intros W A. simpl. rewrite aggregate_consistent_spec in A.
  rewrite aggregate_consistent_spec. simpl. split.
  - intros A' r Hr M. apply slot_matches_true in M as [M1 M2].
    destruct r as [cid0 sd0 c]. simpl in *. subst cid0 sd0.
    destruct (referenced_committee_once _ _ _ _ _ W Hr) as (ch & _ & Hch & E).
    pose proof (A ch Hch) as T. pose proof (A' ch Hch) as T'.
    rewrite T, sum_slot_requirements_delete, E, Z.eqb_refl in T'.
    apply wf_db_parts in W as (_ & U & _).
    rewrite (slot_keys_unique_match _ _ _ _ U Hr) in T'. simpl in T'.
    injection T' as T'. lia.
  - intros Z c Hc. rewrite (A c Hc), sum_slot_requirements_delete.
    f_equal. destruct (cid =? committee_id c); [|lia].
    rewrite Zsum_zero; [lia|].
    intros x Hx. apply in_map_iff in Hx as (r & <- & Hr).
    apply filter_In in Hr as [Hr M]. auto.
Qed.

(** C1 (amended).  In a well-formed store where every committee's
    [total_slots] equals the sum of the [slot_requirements] of its slot rows:
    creating a slot keeps the store well formed and keeps the equality;
    updating a slot that exists does so too; deleting keeps the store well
    formed and leaves the [committee] table as it is, so the equality
    survives a delete exactly when every row the delete matches has
    [slot_requirements = 0]. *)
Theorem slot_accounting_aggregate nn db cid sd n :
  wf_db nn db = true ->
  aggregate_consistent db = true ->
  (wf_db nn (snd (addCommitteeSlots nn cid sd n db)) = true /\
   aggregate_consistent (snd (addCommitteeSlots nn cid sd n db)) = true)
  /\ (has_slot db cid sd = true ->
      wf_db nn (snd (updateCommitteeSlots nn cid sd n db)) = true /\
      aggregate_consistent (snd (updateCommitteeSlots nn cid sd n db)) = true)
  /\ (wf_db nn (snd (deleteSlotRequirement cid sd db)) = true /\
      committee (snd (deleteSlotRequirement cid sd db)) = committee db /\
      (aggregate_consistent (snd (deleteSlotRequirement cid sd db)) = true <->
       forall r, In r (committee_slots db) -> slot_matches cid sd r = true ->
                 slot_requirements r = 0)).
Proof.
  intros W A. split; [|split].
  - split; [now apply addCommitteeSlots_wf|now apply addCommitteeSlots_aggregate].
  - intros S. split.
    + now apply updateCommitteeSlots_wf.
    + now apply updateCommitteeSlots_aggregate.
  - split; [now apply deleteSlotRequirement_wf|]. split; [reflexivity|].
    now apply (deleteSlotRequirement_aggregate nn).
Qed.

Lemma slot_accounting_aggregate_witness :
  aggregate_consistent (snd (addCommitteeSlots true 1 "BQ" 2 db1)) = true
  /\ aggregate_consistent (snd (updateCommitteeSlots true 2 "BQ" 9 db1)) = true.
Proof.
  destruct (slot_accounting_aggregate true db1 1 "BQ" 2 eq_refl eq_refl)
    as [[_ Hadd] _].
  destruct (slot_accounting_aggregate true db1 2 "BQ" 9 eq_refl eq_refl)
    as [_ [Hupd _]].
  split; [exact Hadd|exact (proj2 (Hupd eq_refl))].
Defined.

(** C1 as stated fails for the delete: in [db1] every committee's
    [total_slots] equals the sum of its slot requirements, and deleting the
    slot [(1, AO)], whose requirement is 5, leaves committee 1 with
    [total_slots = 5] and no slot row. *)
Lemma delete_breaks_aggregate :
  (wf_db true db1 = true /\ wf_db false db1 = true
   /\ aggregate_consistent db1 = true
   /\ aggregate_consistent (snd (deleteSlotRequirement 1 "AO" db1)) = false)
  /\ ~ (forall nn db cid sd,
          wf_db nn db = true -> aggregate_consistent db = true ->
          aggregate_consistent (snd (deleteSlotRequirement cid sd db)) = true).
Proof.
  split; [repeat split|].
  intros H. specialize (H true db1 1 "AO" eq_refl eq_refl). discriminate H.
Qed.

(** ** Reading back a pair and a committee *)

Lemma filter_map_preserved {A} (p : A -> bool) (f : A -> A) l :
  (forall x, p (f x) = p x) -> filter p (map f l) = map f (filter p l).
Proof.
  intros H. induction l as [|a l IH]; simpl; [reflexivity|].
  rewrite H. destruct (p a); simpl; now rewrite IH.
Qed.

Lemma slot_matches_set cid' sd' n cid sd r :
  slot_matches cid' sd' (set_slot_requirements n cid sd r)
  = slot_matches cid' sd' r.
Proof.
  unfold set_slot_requirements. destruct (slot_matches cid sd r); reflexivity.
Qed.

Lemma total_slots_of_add db cid' cid p slots' sds' :
  total_slots_of {| committee := map (add_total_slots cid p) (committee db);
                    committee_slots := slots';
                    senate_division := sds' |} cid'
  = map total_slots
      (map (add_total_slots cid p)
         (filter (fun c => committee_id c =? cid') (committee db))).
Proof.
  unfold total_slots_of. simpl. f_equal.
  apply (filter_map_preserved (fun c => committee_id c =? cid')).
  intros c. now rewrite committee_id_add_total_slots.
Qed.

Lemma add_total_slots_same cid p c :
  committee_id c = cid ->
  total_slots (add_total_slots cid p c) = sql_add (total_slots c) p.
Proof.
  intros E. unfold add_total_slots. rewrite E, Z.eqb_refl. reflexivity.
Qed.

Lemma set_slot_requirements_same n cid sd c :
  set_slot_requirements n cid sd (mk_committee_slots cid sd c)
  = mk_committee_slots cid sd n.
Proof.
  unfold set_slot_requirements, slot_matches. simpl.
  now rewrite Z.eqb_refl, String.eqb_refl.
Qed.

(** Whatever the store, the update resolves with both statements applied or
    rejects with the store as it was. *)
Lemma updateCommitteeSlots_atomic nn db cid sd n :
  (exists e, updateCommitteeSlots nn cid sd n db = (Rejected e, db))
  \/ (exists vs p,
        updateCommitteeSlots nn cid sd n db =
        (Resolved vs,
         {| committee := map (add_total_slots cid p) (committee db);
            committee_slots :=
              map (set_slot_requirements n cid sd) (committee_slots db);
            senate_division := senate_division db |})).
Proof.
  unfold updateCommitteeSlots, bind, catch.
  assert (exists s, settles (one (sql_select_difference cid n sd)) db
                    = (s, db)) as (s & ->).
  { unfold settles, one, sql_select_difference. simpl.
    destruct (map _ _) as [|x [|y l]]; eauto. }
  destruct s as [v|e]; rewrite updateCommitteeSlots_tx_run; cbv zeta;
    destruct (nn && _); eauto.
Qed.

(** The update of an existing slot, read back. *)
Lemma updateCommitteeSlots_read_back nn db cid sd n c :
  wf_db nn db = true ->
  In (mk_committee_slots cid sd c) (committee_slots db) ->
  exists ch,
    filter (fun c' => committee_id c' =? cid) (committee db) = [ch]
    /\ updateCommitteeSlots nn cid sd n db =
       (Resolved [ VResult (mk_Result "UPDATE" 1 []);
                   VResult (mk_Result "UPDATE" 1 []) ],
        {| committee := map (add_total_slots cid (Some (n - c))) (committee db);
           committee_slots :=
             map (set_slot_requirements n cid sd) (committee_slots db);
           senate_division := senate_division db |})
    /\ slot_requirements_of (snd (updateCommitteeSlots nn cid sd n db)) cid sd
       = [n]
    /\ total_slots_of (snd (updateCommitteeSlots nn cid sd n db)) cid
       = [sql_add (total_slots ch) (Some (n - c))].
Proof.
  intros W Hin.
  destruct (referenced_committee_once _ _ _ _ _ W Hin) as (ch & F & _ & E).
  exists ch. rewrite (updateCommitteeSlots_found _ _ _ _ n _ W Hin), F.
  repeat split.
  - unfold slot_requirements_of. simpl.
    rewrite (filter_map_preserved (slot_matches cid sd))
      by (intros r; apply slot_matches_set).
    apply wf_db_parts in W as (_ & U & _).
    rewrite (slot_keys_unique_match _ _ _ _ U Hin). simpl.
    now rewrite set_slot_requirements_same.
  - cbn [snd]. rewrite total_slots_of_add, F. simpl.
    now rewrite add_total_slots_same.
Qed.

(** C2.  Updating an existing slot row [(cid, sd)] of a well-formed store,
    whose current requirement is [c], to [n]: the promise resolves with a
    row count of 1 for each statement; the pair reads back [n] and every
    other slot row is as before; the parent committee, stored once, has
    [total_slots] moved by [n - c] (from [t] to [t + (n - c)]), and every
    other committee is as before.  And for every store and every input the
    update applies both writes or neither: it resolves with the slot table
    overwritten and the aggregate adjusted, or rejects with the store as it
    was. *)
Theorem update_existing_slot nn db cid sd n :
  ((exists e, updateCommitteeSlots nn cid sd n db = (Rejected e, db))
   \/ (exists vs p,
         updateCommitteeSlots nn cid sd n db =
         (Resolved vs,
          {| committee := map (add_total_slots cid p) (committee db);
             committee_slots :=
               map (set_slot_requirements n cid sd) (committee_slots db);
             senate_division := senate_division db |})))
  /\ forall c,
      wf_db nn db = true ->
      In (mk_committee_slots cid sd c) (committee_slots db) ->
      exists ch,
        filter (fun c' => committee_id c' =? cid) (committee db) = [ch]
        /\ updateCommitteeSlots nn cid sd n db =
           (Resolved [ VResult (mk_Result "UPDATE" 1 []);
                       VResult (mk_Result "UPDATE" 1 []) ],
            {| committee :=
                 map (add_total_slots cid (Some (n - c))) (committee db);
               committee_slots :=
                 map (set_slot_requirements n cid sd) (committee_slots db);
               senate_division := senate_division db |})
        /\ slot_requirements_of (snd (updateCommitteeSlots nn cid sd n db))
             cid sd = [n]
        /\ (forall t, total_slots ch = Some t ->
              total_slots_of (snd (updateCommitteeSlots nn cid sd n db)) cid
              = [Some (t + (n - c))]).
Proof.
  split; [apply updateCommitteeSlots_atomic|].
  intros c W Hin.
  destruct (updateCommitteeSlots_read_back _ _ _ _ n _ W Hin)
    as (ch & F & R & S & T).
  exists ch. repeat split; try assumption.
  intros t Ht. rewrite T, Ht. reflexivity.
Qed.

Lemma update_existing_slot_witness :
  updateCommitteeSlots true 2 "BQ" 1 db1 =
  (Resolved [ VResult (mk_Result "UPDATE" 1 []);
              VResult (mk_Result "UPDATE" 1 []) ],
   {| committee := [ mk_committee 1 "Linux Committee" "tux-everywhere" (Some 5);
                     mk_committee 2 "Library Committee" "books" (Some 4) ];
      committee_slots := [ mk_committee_slots 1 "AO" 5;
                           mk_committee_slots 2 "AO" 3;
                           mk_committee_slots 2 "BQ" 1 ];
      senate_division := senate_division db1 |}).
Proof.
  destruct (proj2 (update_existing_slot true db1 2 "BQ" 1) 4 eq_refl)
    as (ch & _ & R & _).
  - simpl. auto.
  - exact R.
Defined.

(** C9.  Updating an existing slot row whose current requirement is [c] to
    [n], in a well-formed store whose parent committee holds
    [total_slots = t]: afterwards the parent holds exactly [t + (n - c)],
    an integer sum without any lower bound, and in particular a negative
    number whenever [t + (n - c) < 0]. *)
Theorem update_total_slots_exact nn db cid sd n c t :
  wf_db nn db = true ->
  In (mk_committee_slots cid sd c) (committee_slots db) ->
  total_slots_of db cid = [Some t] ->
  total_slots_of (snd (updateCommitteeSlots nn cid sd n db)) cid
  = [Some (t + (n - c))]
  /\ (t + (n - c) < 0 ->
      exists z, z < 0 /\
        total_slots_of (snd (updateCommitteeSlots nn cid sd n db)) cid
        = [Some z]).
Proof.
  intros W Hin T.
  destruct (updateCommitteeSlots_read_back _ _ _ _ n _ W Hin)
    as (ch & F & _ & _ & T').
  unfold total_slots_of in T at 1. rewrite F in T. simpl in T.
  injection T as T. rewrite T in T'. simpl in T'.
  split; [exact T'|]. intros Hneg. eauto.
Qed.

Lemma update_total_slots_exact_witness :
  total_slots_of (snd (updateCommitteeSlots false 1 "AO" (-3) db1)) 1
  = [Some (-3)].
Proof.
  exact (proj1 (update_total_slots_exact false db1 1 "AO" (-3) 5 5 eq_refl
                  (or_introl eq_refl) eq_refl)).
Defined.

(** ** Updates that find no slot row *)

Lemma sql_add_null a : sql_add a None = None.
Proof. destruct a; reflexivity. Qed.

Lemma add_null_reaches_committee db cid :
  has_committee db cid = true ->
  existsb (fun c => (committee_id c =? cid) && is_null (total_slots c))
    (map (add_total_slots cid None) (committee db)) = true.
Proof.
  intros H. apply has_committee_In in H as (c & Hc & E).
  apply existsb_exists. exists (add_total_slots cid None c). split.
  - now apply in_map.
  - rewrite committee_id_add_total_slots, add_total_slots_same, sql_add_null
      by assumption.
    rewrite E, Z.eqb_refl. reflexivity.
Qed.

Lemma add_total_slots_elsewhere db cid p :
  has_committee db cid = false ->
  map (add_total_slots cid p) (committee db) = committee db.
Proof.
  unfold has_committee. intros H. rewrite <- (map_id (committee db)) at 2.
  apply map_ext_in. intros c Hc.
  pose proof (existsb_false_In _ _ _ H Hc) as F. simpl in F.
  unfold add_total_slots. now rewrite F.
Qed.

Lemma set_slot_requirements_elsewhere db n cid sd :
  has_slot db cid sd = false ->
  map (set_slot_requirements n cid sd) (committee_slots db) = committee_slots db.
Proof.
  unfold has_slot. intros H. rewrite <- (map_id (committee_slots db)) at 2.
  apply map_ext_in. intros r Hr.
  unfold set_slot_requirements. now rewrite (existsb_false_In _ _ _ H Hr).
Qed.

Lemma updateCommitteeSlots_missing nn db cid sd n :
  has_slot db cid sd = false ->
  updateCommitteeSlots nn cid sd n db =
  updateCommitteeSlots_tx nn cid sd n
    (inr (QueryError (QueryResultError noData))) db.
Proof.
  intros S. unfold updateCommitteeSlots, bind, catch.
  now rewrite (pre_read_missing _ _ n _ S).
Qed.

(** X16.  An update whose pair has no slot row and whose committee does not
    exist: the caught pre-read error leaves the difference undefined, both
    statements match no row, the promise resolves with two row counts of 0
    and the store is as before. *)
Lemma updateCommitteeSlots_nothing_to_update nn db cid sd n :
  has_slot db cid sd = false -> has_committee db cid = false ->
  updateCommitteeSlots nn cid sd n db =
  (Resolved [ VResult (mk_Result "UPDATE" 0 []);
              VResult (mk_Result "UPDATE" 0 []) ], db).
Proof.
  intros S C. rewrite (updateCommitteeSlots_missing _ _ _ _ _ S),
    updateCommitteeSlots_tx_run. cbv zeta.
  rewrite (add_total_slots_elsewhere _ _ _ C),
    (set_slot_requirements_elsewhere _ _ _ _ S).
  pose proof S as S'. unfold has_slot in S'.
  pose proof C as C'. unfold has_committee in C'.
  rewrite (existsb_false_filter _ _ S'), (existsb_false_filter _ _ C').
  assert (existsb (fun c => (committee_id c =? cid) && is_null (total_slots c))
            (committee db) = false) as ->.
  { apply not_true_iff_false. intros E.
    apply existsb_exists in E as (c & Hc & E).
    apply andb_true_iff in E as [E _].
    pose proof (existsb_false_In _ _ _ C' Hc) as F. simpl in F. congruence. }
  rewrite andb_false_r. destruct db; reflexivity.
Qed.

(** C3 (the code departs from the claim).  An update whose pair has no slot
    row while the committee exists: the caught pre-read error has no
    [difference], so the aggregate statement adds NULL.  Where
    [total_slots] is declared NOT NULL the transaction rejects with the
    not-null violation and the store is as before; where it is nullable the
    promise resolves with a slot row count of 0 and every stored
    [total_slots] of that committee has become NULL. *)
Theorem update_missing_slot_existing_committee nn db cid sd n :
  has_slot db cid sd = false ->
  has_committee db cid = true ->
  (nn = true ->
   updateCommitteeSlots nn cid sd n db =
   (Rejected (BatchError [ fulfilled (VResult (mk_Result "UPDATE" 0 []));
                           failed (DatabaseError not_null_violation) ]),
    db))
  /\ (nn = false ->
      exists k,
        (0 < k)%nat
        /\ updateCommitteeSlots nn cid sd n db =
           (Resolved [ VResult (mk_Result "UPDATE" 0 []);
                       VResult (mk_Result "UPDATE" k []) ],
            set_committee db (map (add_total_slots cid None) (committee db)))
        /\ total_slots_of (snd (updateCommitteeSlots nn cid sd n db)) cid
           = repeat None k).
Proof.
  intros S C.
  rewrite (updateCommitteeSlots_missing _ _ _ _ _ S),
    updateCommitteeSlots_tx_run. cbv zeta. simpl difference_of.
  rewrite (add_null_reaches_committee _ _ C),
    (set_slot_requirements_elsewhere _ _ _ _ S).
  pose proof S as S'. unfold has_slot in S'.
  rewrite (existsb_false_filter _ _ S'). simpl length.
  split; intros ->; simpl; [reflexivity|].
  exists (length (filter (fun c => committee_id c =? cid) (committee db))).
  repeat split.
  - apply has_committee_In in C as (c & Hc & E).
    assert (In c (filter (fun c => committee_id c =? cid) (committee db))) as I.
    { apply filter_In. split; [assumption|]. now apply Z.eqb_eq. }
    destruct (filter _ _); [destruct I|simpl; lia].
  - rewrite (total_slots_of_add db cid cid None).
    induction (committee db) as [|c t IH]; simpl; [reflexivity|].
    destruct (committee_id c =? cid) eqn:E; simpl; [|exact IH].
    apply Z.eqb_eq in E.
    now rewrite add_total_slots_same, sql_add_null, IH.
Qed.

Lemma update_missing_slot_existing_committee_witness :
  updateCommitteeSlots true 1 "ZZ" 3 db0 =
  (Rejected (BatchError [ fulfilled (VResult (mk_Result "UPDATE" 0 []));
                          failed (DatabaseError not_null_violation) ]),
   db0)
  /\ exists k,
      (0 < k)%nat
      /\ updateCommitteeSlots false 1 "ZZ" 3 db0 =
         (Resolved [ VResult (mk_Result "UPDATE" 0 []);
                     VResult (mk_Result "UPDATE" k []) ],
          set_committee db0 (map (add_total_slots 1 None) (committee db0)))
      /\ total_slots_of (snd (updateCommitteeSlots false 1 "ZZ" 3 db0)) 1
         = repeat None k.
Proof.
  split.
  - exact (proj1 (update_missing_slot_existing_committee true db0 1 "ZZ" 3
                    eq_refl eq_refl) eq_refl).
  - exact (proj2 (update_missing_slot_existing_committee false db0 1 "ZZ" 3
                    eq_refl eq_refl) eq_refl).
Defined.




(** ** Creating a slot *)

(** Whatever the store, the create resolves with the insert and the
    aggregate update both applied or rejects with the store as it was. *)
Lemma addCommitteeSlots_atomic nn db cid sd n :
  (exists e, addCommitteeSlots nn cid sd n db = (Rejected e, db))
  \/ (exists vs,
        addCommitteeSlots nn cid sd n db =
        (Resolved vs,
         {| committee := map (add_total_slots cid (Some n)) (committee db);
            committee_slots :=
              committee_slots db ++ [mk_committee_slots cid sd n];
            senate_division := senate_division db |})).
Proof.
  rewrite addCommitteeSlots_run. cbv zeta.
  destruct (has_slot db cid sd); [eauto|].
  destruct (negb _ || negb _); [eauto|].
  destruct (nn && _); eauto.
Qed.

(** C4.  Creating the slot [(cid, sd, n)] in a well-formed store where the
    committee and the senate division exist and the pair has no slot row:
    the promise resolves with the returned row carrying the inserted row's
    [committee_id] followed by the aggregate update's result (one row); the
    slot table is the old one with the row [(cid, sd, n)] appended, so the
    pair reads back [n]; the parent committee, stored once, has
    [total_slots] increased by [n] (from [t] to [t + n]), and every other
    committee is as before. *)
Theorem create_slot nn db cid sd n :
  wf_db nn db = true ->
  has_committee db cid = true ->
  has_senate_division db sd = true ->
  has_slot db cid sd = false ->
  exists ch,
    filter (fun c' => committee_id c' =? cid) (committee db) = [ch]
    /\ addCommitteeSlots nn cid sd n db =
       (Resolved [ VRow (Row_committeeId cid);
                   VResult (mk_Result "UPDATE" 1 []) ],
        {| committee := map (add_total_slots cid (Some n)) (committee db);
           committee_slots :=
             committee_slots db ++ [mk_committee_slots cid sd n];
           senate_division := senate_division db |})
    /\ slot_requirements_of (snd (addCommitteeSlots nn cid sd n db)) cid sd
       = [n]
    /\ (forall t, total_slots ch = Some t ->
          total_slots_of (snd (addCommitteeSlots nn cid sd n db)) cid
          = [Some (t + n)]).
Proof.
  intros W C D S.
  pose proof (wf_db_parts _ _ W) as (U & _ & _ & P).
  apply has_committee_In in C as C'. destruct C' as (ch & Hch & E).
  assert (filter (fun c' => committee_id c' =? cid) (committee db) = [ch]) as F.
  { subst cid. now apply committee_ids_unique_filter. }
  exists ch. split; [exact F|].
  rewrite addCommitteeSlots_run. cbv zeta.
  rewrite S, C, D, (add_total_slots_no_null _ _ _ _ P), F. simpl.
  repeat split.
  - unfold slot_requirements_of. simpl. rewrite filter_app.
    unfold has_slot in S. rewrite (existsb_false_filter _ _ S). simpl.
    unfold slot_matches. simpl. now rewrite Z.eqb_refl, String.eqb_refl.
  - intros t Ht. rewrite total_slots_of_add, F. simpl.
    now rewrite add_total_slots_same, Ht.
Qed.

Lemma create_slot_witness :
  addCommitteeSlots true 1 "AO" 5 db0 =
  (Resolved [ VRow (Row_committeeId 1); VResult (mk_Result "UPDATE" 1 []) ],
   {| committee := [ mk_committee 1 "Linux Committee" "tux-everywhere" (Some 25) ];
      committee_slots := [ mk_committee_slots 1 "AO" 5 ];
      senate_division := senate_division db0 |}).
Proof.
  destruct (create_slot true db0 1 "AO" 5 eq_refl eq_refl eq_refl eq_refl)
    as (ch & _ & R & _).
  exact R.
Defined.

(** C5.  A create that names a committee or a senate division that does not
    exist, or a pair that already has a slot row, rejects with a
    [BatchError] whose first error is the store's foreign-key violation
    (23503) or unique violation (23505), the latter when the pair exists;
    the aggregate update is refused in the failed transaction and the store
    is as before.  And for every store and every input the create applies
    the insert and the aggregate update together or neither. *)
Theorem create_conflict nn db cid sd n :
  ((exists e, addCommitteeSlots nn cid sd n db = (Rejected e, db))
   \/ (exists vs,
         addCommitteeSlots nn cid sd n db =
         (Resolved vs,
          {| committee := map (add_total_slots cid (Some n)) (committee db);
             committee_slots :=
               committee_slots db ++ [mk_committee_slots cid sd n];
             senate_division := senate_division db |})))
  /\ (has_committee db cid = false \/ has_senate_division db sd = false
      \/ has_slot db cid sd = true ->
      exists code,
        addCommitteeSlots nn cid sd n db =
        (Rejected (BatchError
                     [ failed (DatabaseError code);
                       failed (DatabaseError in_failed_sql_transaction) ]),
         db)
        /\ first [ failed (DatabaseError code);
                   failed (DatabaseError in_failed_sql_transaction) ]
           = Some (DatabaseError code)
        /\ code = (if has_slot db cid sd then unique_violation
                   else foreign_key_violation)
        /\ total_slots_of (snd (addCommitteeSlots nn cid sd n db)) cid
           = total_slots_of db cid).
Proof.
  split; [apply addCommitteeSlots_atomic|].
  intros H. rewrite addCommitteeSlots_run. cbv zeta.
  destruct (has_slot db cid sd) eqn:S.
  - exists unique_violation. repeat split.
  - assert (negb (has_committee db cid) || negb (has_senate_division db sd)
            = true) as ->.
    { destruct H as [->|[->|H']]; [reflexivity| |discriminate].
      apply orb_true_r. }
    exists foreign_key_violation. repeat split.
Qed.

Lemma create_conflict_witness :
  (exists code,
     addCommitteeSlots true 9 "AO" 3 db1 =
     (Rejected (BatchError
                  [ failed (DatabaseError code);
                    failed (DatabaseError in_failed_sql_transaction) ]),
      db1)
     /\ code = foreign_key_violation)
  /\ (exists code,
        addCommitteeSlots true 1 "AO" 3 db1 =
        (Rejected (BatchError
                     [ failed (DatabaseError code);
                       failed (DatabaseError in_failed_sql_transaction) ]),
         db1)
        /\ code = unique_violation).
Proof.
  split.
  - destruct (proj2 (create_conflict true db1 9 "AO" 3) (or_introl eq_refl))
      as (code & R & _ & E & _).
    exists code. split; [exact R|exact E].
  - destruct (proj2 (create_conflict true db1 1 "AO" 3)
                (or_intror (or_intror eq_refl)))
      as (code & R & _ & E & _).
    exists code. split; [exact R|exact E].
Defined.

(** ** Deleting a slot *)

Lemma filter_all {A} (f : A -> bool) l :
  existsb f l = false -> filter (fun x => negb (f x)) l = l.
Proof.
  induction l as [|a l IH]; simpl; intros H; [reflexivity|].
  apply orb_false_iff in H as [Ha Hl]. rewrite Ha. simpl. now rewrite IH.
Qed.

Lemma filter_split_length {A} (f : A -> bool) l :
  (length (filter (fun x => negb (f x)) l) + length (filter f l))%nat
  = length l.
Proof.
  induction l as [|a l IH]; simpl; [reflexivity|].
  destruct (f a); simpl; lia.
Qed.

Lemma existsb_filter_negb {A} (f : A -> bool) l :
  existsb f (filter (fun x => negb (f x)) l) = false.
Proof.
  induction l as [|a l IH]; simpl; [reflexivity|].
  destruct (f a) eqn:E; simpl; [assumption|]. now rewrite E.
Qed.

(** C6.  In every store the delete resolves, never rejects, with the result
    object of the DELETE, and leaves the slot table without the rows of the
    pair: the row count it carries is the number of rows deleted, the table
    is shorter by exactly that many rows and the pair has no row afterwards;
    a pair without a slot row gives a row count of 0 and the store as it
    was.  Where the pair is unique (the schema's constraint) the count is 1
    when the pair had a slot row, and then one row is gone, and 0 when it
    had none. *)
Theorem delete_row_count db cid sd :
  (exists k,
     deleteSlotRequirement cid sd db
     = (Resolved (VResult (mk_Result "DELETE" k [])),
        set_committee_slots db
          (filter (fun r => negb (slot_matches cid sd r)) (committee_slots db)))
     /\ (length (committee_slots (snd (deleteSlotRequirement cid sd db))) + k)%nat
        = length (committee_slots db)
     /\ has_slot (snd (deleteSlotRequirement cid sd db)) cid sd = false
     /\ (has_slot db cid sd = false ->
         k = 0%nat /\ snd (deleteSlotRequirement cid sd db) = db))
  /\ (slot_keys_unique (committee_slots db) = true ->
      fst (deleteSlotRequirement cid sd db)
      = Resolved (VResult (mk_Result "DELETE"
                             (if has_slot db cid sd then 1%nat else 0%nat) []))
      /\ (length (committee_slots (snd (deleteSlotRequirement cid sd db)))
          + (if has_slot db cid sd then 1 else 0))%nat
         = length (committee_slots db)).
Proof.
  split.
  - exists (length (filter (slot_matches cid sd) (committee_slots db))).
    split; [reflexivity|]. split; [|split].
    + simpl. apply filter_split_length.
    + unfold has_slot. simpl. apply existsb_filter_negb.
    + intros S. unfold has_slot in S. simpl.
      rewrite (existsb_false_filter _ _ S).
      split; [reflexivity|].
      unfold set_committee_slots. rewrite (filter_all _ _ S).
      destruct db; reflexivity.
  - intros U.
    assert (length (filter (slot_matches cid sd) (committee_slots db))
            = if has_slot db cid sd then 1%nat else 0%nat) as K.
    { destruct (has_slot db cid sd) eqn:S.
      - apply has_slot_In in S as (c & Hin).
        now rewrite (slot_keys_unique_match _ _ _ _ U Hin).
      - unfold has_slot in S. now rewrite (existsb_false_filter _ _ S). }
    simpl. rewrite <- K. split; [reflexivity|]. apply filter_split_length.
Qed.

Lemma delete_row_count_witness :
  fst (deleteSlotRequirement 1 "AO" db1)
  = Resolved (VResult (mk_Result "DELETE" 1 []))
  /\ fst (deleteSlotRequirement 1 "BQ" db1)
     = Resolved (VResult (mk_Result "DELETE" 0 [])).
Proof.
  split.
  - exact (proj1 (proj2 (delete_row_count db1 1 "AO") eq_refl)).
  - exact (proj1 (proj2 (delete_row_count db1 1 "BQ") eq_refl)).
Defined.

(** C7.  The delete keeps exactly the slot rows that do not match the pair,
    in their order, and leaves the [committee] and [senate_division] tables
    as they are; every committee's [total_slots] is what it was, whether a
    row was deleted or not. *)
Theorem delete_frame db cid sd :
  committee (snd (deleteSlotRequirement cid sd db)) = committee db
  /\ senate_division (snd (deleteSlotRequirement cid sd db)) = senate_division db
  /\ (forall cid', total_slots_of (snd (deleteSlotRequirement cid sd db)) cid'
                   = total_slots_of db cid')
  /\ committee_slots (snd (deleteSlotRequirement cid sd db))
     = filter (fun r => negb (slot_matches cid sd r)) (committee_slots db)
  /\ (forall r, In r (committee_slots (snd (deleteSlotRequirement cid sd db)))
                <-> In r (committee_slots db) /\ slot_matches cid sd r = false).
Proof.
  split; [reflexivity|]. split; [reflexivity|]. split; [reflexivity|].
  split; [reflexivity|]. intros r. simpl. rewrite filter_In, negb_true_iff.
  reflexivity.
Qed.

(** ** Who writes [total_slots] *)

Lemma committee_id_set_committee_columns p1 p2 p3 p4 c :
  committee_id (set_committee_columns p1 p2 p3 p4 c) = committee_id c.
Proof. unfold set_committee_columns. destruct (_ =? _); reflexivity. Qed.

(** An [updateCommittee] that resolves has stored the caller's [slots] as
    the committee's [total_slots]. *)
Lemma updateCommittee_overwrites db id nm ds slots v :
  fst (updateCommittee id nm ds slots db) = Resolved v ->
  total_slots_of (snd (updateCommittee id nm ds slots db)) id
  = map (fun _ => Some slots) (total_slots_of db id).
Proof.
  unfold updateCommittee, tx, settles, result, sql_update_committee.
  destruct (has_committee db id && _); simpl; [discriminate|]. intros _.
  unfold total_slots_of. simpl.
  rewrite (filter_map_preserved (fun c => committee_id c =? id))
    by (intros c; now rewrite committee_id_set_committee_columns).
  rewrite !map_map. apply map_ext_in. intros c Hc.
  apply filter_In in Hc as [_ Hc].
  unfold set_committee_columns. now rewrite Hc.
Qed.

(** C8 (amended).  Among the functions [queries.js] exports, the ones with a
    statement that writes [committee.total_slots] are exactly
    [addCommittee], [addCommitteeSlots], [updateCommittee] and
    [updateCommitteeSlots]: besides the two slot-accounting functions,
    [addCommittee] stores the caller's value in the row it inserts and
    [updateCommittee] overwrites the column with the caller's value; no
    other exported function, and no handler of the older connection module,
    writes it. *)
Theorem total_slots_writers :
  map Exports.fn
    (filter Exports.writes_total_slots Exports.module_exports)
  = ["addCommittee"; "addCommitteeSlots"; "updateCommittee";
     "updateCommitteeSlots"]
  /\ filter Exports.writes_total_slots Exports.connection_exports = []
  /\ (forall e, In e Exports.module_exports ->
                Exports.writes_total_slots e = true ->
                Exports.is_slot_accounting e = true
                \/ Exports.fn e = "addCommittee"
                \/ Exports.fn e = "updateCommittee")
  /\ (forall db id nm ds slots v,
        fst (updateCommittee id nm ds slots db) = Resolved v ->
        total_slots_of (snd (updateCommittee id nm ds slots db)) id
        = map (fun _ => Some slots) (total_slots_of db id)).
Proof.
  split; [reflexivity|]. split; [reflexivity|]. split.
  - intros e He W.
    assert (In e (filter Exports.writes_total_slots Exports.module_exports))
      as F by (apply filter_In; auto).
    simpl in F. destruct F as [<-|[<-|[<-|[<-|[]]]]]; simpl; auto.
  - apply updateCommittee_overwrites.
Qed.

(** C8 as stated fails: [updateCommittee] is exported, is not one of the
    slot-accounting functions, and writes [total_slots]; on [db1] it turns
    committee 1's aggregate from 5 into 42 while its slot rows still sum
    to 5. *)
Lemma total_slots_written_elsewhere :
  (In (Exports.mk_export "updateCommittee"
         [Exports.UPDATE_SET "committee" ["name"; "description"; "total_slots"]])
      Exports.module_exports
   /\ total_slots_of db1 1 = [Some 5]
   /\ total_slots_of
        (snd (updateCommittee 1 "Linux Committee" "tux-everywhere" 42 db1)) 1
      = [Some 42]
   /\ sum_slot_requirements 1
        (committee_slots
           (snd (updateCommittee 1 "Linux Committee" "tux-everywhere" 42 db1)))
      = 5)
  /\ ~ (forall e, In e Exports.module_exports ->
                  Exports.writes_total_slots e = true ->
                  Exports.is_slot_accounting e = true).
Proof.
  split.
  - split; [|repeat split]. simpl. do 28 right. left. reflexivity.
  - intros H.
    specialize (H (Exports.mk_export "addCommittee"
                     [Exports.INSERT_INTO "committee"
                        ["name"; "description"; "total_slots"]])).
    simpl in H. specialize (H (or_introl eq_refl) eq_refl). discriminate H.
Qed.

(** * Further properties of the code *)

(** ** Grouping department associations *)

Lemma department_run d es l :
  (forall x, In x l -> da_department_id x = d) ->
  fold_left department_step l (department d es)
  = department d (es ++ map da_email l).
Proof.
  revert es. induction l as [|x l IH]; simpl; intros es H.
  - now rewrite app_nil_r.
  - rewrite (H x (or_introl eq_refl)), Z.eqb_refl, IH by auto.
    now rewrite <- app_assoc.
Qed.

Lemma faculty_run e ds l :
  (forall x, In x l -> da_email x = e) ->
  fold_left faculty_step l (faculty e ds)
  = faculty e (ds ++ map da_department_id l).
Proof.
  revert ds. induction l as [|x l IH]; simpl; intros ds H.
  - now rewrite app_nil_r.
  - rewrite (H x (or_introl eq_refl)), String.eqb_refl, IH by auto.
    now rewrite <- app_assoc.
Qed.

Lemma department_step_key acc cur :
  exists es, department_step acc cur = department (da_department_id cur) es.
Proof.
  destruct acc as [|d es]; simpl; [eauto|].
  destruct (d =? da_department_id cur) eqn:E; [|eauto].
  apply Z.eqb_eq in E. subst d. eauto.
Qed.

Lemma faculty_step_key acc cur :
  exists ds, faculty_step acc cur = faculty (da_email cur) ds.
Proof.
  destruct acc as [|e ds]; simpl; [eauto|].
  destruct (e =? da_email cur)%string eqn:E; [|eauto].
  apply String.eqb_eq in E. subst e. eauto.
Qed.

(** X1.  [groupDepartmentFacultyById] returns the empty array on no rows;
    on rows of one department it returns that department with the emails of
    all rows, in their order; and whenever a row's department differs from
    the one before it, everything grouped so far is dropped: the result
    holds only the last run of rows of one department. *)
Theorem groupDepartmentFacultyById_last_run r rest :
  (forall x, In x rest -> da_department_id x = da_department_id r) ->
  groupDepartmentFacultyById [] = no_department
  /\ groupDepartmentFacultyById (r :: rest)
     = department (da_department_id r) (da_email r :: map da_email rest)
  /\ forall pre p,
      da_department_id p <> da_department_id r ->
      groupDepartmentFacultyById (pre ++ p :: r :: rest)
      = department (da_department_id r) (da_email r :: map da_email rest).
Proof.
  intros H. split; [reflexivity|]. split.
  - unfold groupDepartmentFacultyById. simpl. now rewrite department_run.
  - intros pre p Hp. unfold groupDepartmentFacultyById.
    rewrite fold_left_app. simpl.
    destruct (department_step_key (fold_left department_step pre no_department) p)
      as (es & ->).
    simpl. apply Z.eqb_neq in Hp. rewrite Hp. now rewrite department_run.
Qed.

Lemma groupDepartmentFacultyById_last_run_witness :
  groupDepartmentFacultyById
    [ mk_department_associations "ada@pdx.edu" 1;
      mk_department_associations "bob@pdx.edu" 2;
      mk_department_associations "cy@pdx.edu" 2 ]
  = department 2 ["bob@pdx.edu"; "cy@pdx.edu"].
Proof.
  refine (proj2 (proj2 (groupDepartmentFacultyById_last_run
            (mk_department_associations "bob@pdx.edu" 2)
            [mk_department_associations "cy@pdx.edu" 2] _))
          [] (mk_department_associations "ada@pdx.edu" 1) _).
  - intros x [<-|[]]. reflexivity.
  - simpl. lia.
Defined.

(** X2.  [groupDepartmentIdByFaculty] returns the empty array on no rows;
    on rows of one faculty member it returns that member with the
    department ids of all rows, in their order; and whenever a row's email
    differs from the one before it, everything grouped so far is dropped. *)
Theorem groupDepartmentIdByFaculty_last_run r rest :
  (forall x, In x rest -> da_email x = da_email r) ->
  groupDepartmentIdByFaculty [] = no_faculty
  /\ groupDepartmentIdByFaculty (r :: rest)
     = faculty (da_email r) (da_department_id r :: map da_department_id rest)
  /\ forall pre p,
      da_email p <> da_email r ->
      groupDepartmentIdByFaculty (pre ++ p :: r :: rest)
      = faculty (da_email r) (da_department_id r :: map da_department_id rest).
Proof.
  intros H. split; [reflexivity|]. split.
  - unfold groupDepartmentIdByFaculty. simpl. now rewrite faculty_run.
  - intros pre p Hp. unfold groupDepartmentIdByFaculty.
    rewrite fold_left_app. simpl.
    destruct (faculty_step_key (fold_left faculty_step pre no_faculty) p)
      as (ds & ->).
    simpl. apply String.eqb_neq in Hp. rewrite Hp. now rewrite faculty_run.
Qed.

Lemma groupDepartmentIdByFaculty_last_run_witness :
  groupDepartmentIdByFaculty
    [ mk_department_associations "ada@pdx.edu" 1;
      mk_department_associations "bob@pdx.edu" 2;
      mk_department_associations "bob@pdx.edu" 3 ]
  = faculty "bob@pdx.edu" [2; 3].
Proof.
  refine (proj2 (proj2 (groupDepartmentIdByFaculty_last_run
            (mk_department_associations "bob@pdx.edu" 2)
            [mk_department_associations "bob@pdx.edu" 3] _))
          [] (mk_department_associations "ada@pdx.edu" 1) _).
  - intros x [<-|[]]. reflexivity.
  - simpl. discriminate.
Defined.

Lemma filter_nonempty {A} (f : A -> bool) l :
  existsb f l = true -> exists x xs, filter f l = x :: xs.
Proof.
  intros H. apply existsb_exists in H as (x & Hx & Fx).
  assert (In x (filter f l)) as I by (apply filter_In; auto).
  destruct (filter f l); [destruct I|eauto].
Qed.

(** X3.  [getDepartmentAssociationsByDepartment]: the rows the query selects
    all carry the asked department, so the grouping drops nothing; the
    result is the empty array when the department has no association, and
    otherwise the department with the emails of all its associations, in
    table order. *)
Theorem getDepartmentAssociationsByDepartment_cases id t :
  getDepartmentAssociationsByDepartment id t
  = (if existsb (fun r => da_department_id r =? id) t
     then department id
            (map da_email (filter (fun r => da_department_id r =? id) t))
     else no_department).
Proof.
  unfold getDepartmentAssociationsByDepartment.
  destruct (existsb _ t) eqn:E.
  - destruct (filter_nonempty _ _ E) as (x & xs & F).
    assert (forall y, In y (x :: xs) -> da_department_id y = id) as K.
    { intros y Hy. rewrite <- F in Hy. apply filter_In in Hy as [_ Hy].
      now apply Z.eqb_eq. }
    rewrite F. unfold groupDepartmentFacultyById. simpl.
    rewrite (K x) by (simpl; auto).
    now rewrite department_run by (intros y Hy; apply K; simpl; auto).
  - now rewrite (existsb_false_filter _ _ E).
Qed.

(** X4.  [getDepartmentAssociationsByFaculty]: the empty array when the
    faculty member has no association, otherwise the member with all their
    department ids, in table order.  The route answers 400 to a missing or
    empty email, 404 to a member without associations and 200 with the
    grouped object otherwise. *)
Theorem get_faculty_cases params_email t :
  getDepartmentAssociationsByFaculty (string_of params_email) t
  = (if existsb (fun r => (da_email r =? string_of params_email)%string) t
     then faculty (string_of params_email)
            (map da_department_id
               (filter (fun r => (da_email r =? string_of params_email)%string)
                  t))
     else no_faculty)
  /\ get_faculty params_email t
     = (if not_string params_email then bad_request
        else if existsb (fun r => (da_email r =? string_of params_email)%string) t
        then mk_response 200
               (send_data
                  (faculty (string_of params_email)
                     (map da_department_id
                        (filter (fun r => (da_email r
                                           =? string_of params_email)%string)
                           t))))
        else mk_response 404 send_nothing).
Proof.
  set (e := string_of params_email).
  assert (getDepartmentAssociationsByFaculty e t
          = if existsb (fun r => (da_email r =? e)%string) t
            then faculty e
                   (map da_department_id
                      (filter (fun r => (da_email r =? e)%string) t))
            else no_faculty) as G.
  { unfold getDepartmentAssociationsByFaculty.
    destruct (existsb _ t) eqn:E.
    - destruct (filter_nonempty _ _ E) as (x & xs & F).
      assert (forall y, In y (x :: xs) -> da_email y = e) as K.
      { intros y Hy. rewrite <- F in Hy. apply filter_In in Hy as [_ Hy].
        now apply String.eqb_eq. }
      rewrite F. unfold groupDepartmentIdByFaculty. simpl.
      rewrite (K x) by (simpl; auto).
      now rewrite faculty_run by (intros y Hy; apply K; simpl; auto). 
    - now rewrite (existsb_false_filter _ _ E). }
  split; [exact G|].
  unfold get_faculty, bad_request. fold e.
  destruct (not_string params_email); [reflexivity|].
  rewrite G. destruct (existsb _ t); reflexivity.
Qed.

(** ** Reading committees and slots back *)

(** X5.  [getCommittee] in a store whose [committee_id] is a key: it
    resolves with a row exactly when that row is stored under the id, it
    rejects with the driver's no-data error exactly when no committee has
    the id, it never finds more than one row, and the store is as before. *)
Theorem getCommittee_by_key db id :
  committee_ids_unique (committee db) = true ->
  (forall c, getCommittee id db = (Resolved c, db)
             <-> In c (committee db) /\ committee_id c = id)
  /\ (getCommittee id db
      = (Rejected (QueryError (QueryResultError noData)), db)
      <-> has_committee db id = false)
  /\ fst (getCommittee id db)
     <> Rejected (QueryError (QueryResultError multiple))
  /\ snd (getCommittee id db) = db.
Proof.
  intros U. unfold getCommittee, select_one, sql_select_committee.
  destruct (has_committee db id) eqn:H.
  - apply has_committee_In in H as (c0 & Hc0 & E). subst id.
    rewrite (committee_ids_unique_filter _ _ U Hc0).
    repeat split; try discriminate.
    + inversion H. now subst.
    + inversion H. now subst.
    + intros [Hc E].
      assert (In c (filter (fun c' => committee_id c' =? committee_id c0)
                      (committee db))) as I.
      { apply filter_In. split; [assumption|]. now apply Z.eqb_eq. }
      rewrite (committee_ids_unique_filter _ _ U Hc0) in I.
      destruct I as [->|[]]. reflexivity.
  - pose proof H as H'. unfold has_committee in H'.
    rewrite (existsb_false_filter _ _ H').
    repeat split; try discriminate; try reflexivity.
    + intros [Hc E]. pose proof (existsb_false_In _ _ _ H' Hc) as F.
      simpl in F. apply Z.eqb_neq in F. contradiction.
Qed.

Lemma getCommittee_by_key_witness :
  getCommittee 2 db1
  = (Resolved (mk_committee 2 "Library Committee" "books" (Some 7)), db1)
  /\ getCommittee 9 db1
     = (Rejected (QueryError (QueryResultError noData)), db1).
Proof.
  destruct (getCommittee_by_key db1 2 eq_refl) as (A & _).
  destruct (getCommittee_by_key db1 9 eq_refl) as (_ & B & _).
  split.
  - apply A. simpl. auto.
  - apply B. reflexivity.
Defined.

(** X6.  After [addCommitteeSlots] resolved, [getCommitteeSlotsByCommittee]
    of the committee returns the rows it returned before together with the
    new division and its requirement, and [getCommitteeSlotsBySenate] of
    the division returns its old rows together with the committee, in
    whatever order; the rows of every other committee and division are as
    before. *)
Theorem addCommitteeSlots_read_back nn db cid sd n vs :
  fst (addCommitteeSlots nn cid sd n db) = Resolved vs ->
  (forall id, exists found,
     fst (getCommitteeSlotsByCommittee id
            (snd (addCommitteeSlots nn cid sd n db))) = Resolved found
     /\ if cid =? id
        then Permutation found
               (mk_division_slots sd n :: sql_select_slots_by_committee id db)
        else found = sql_select_slots_by_committee id db)
  /\ (forall d, exists found,
        fst (getCommitteeSlotsBySenate d
               (snd (addCommitteeSlots nn cid sd n db))) = Resolved found
        /\ if (sd =? d)%string
           then Permutation found
                  (mk_committee_share cid n :: sql_select_slots_by_senate d db)
           else found = sql_select_slots_by_senate d db).
Proof.
  rewrite addCommitteeSlots_run. cbv zeta.
  destruct (has_slot db cid sd); [discriminate|].
  destruct (negb _ || negb _); [discriminate|].
  destruct (nn && _); [discriminate|]. intros _.
  unfold getCommitteeSlotsByCommittee, getCommitteeSlotsBySenate, select_any,
    sql_select_slots_by_committee, sql_select_slots_by_senate. simpl.
  split.
  - intros id. eexists. split; [reflexivity|].
    rewrite filter_app, map_app. simpl.
    destruct (cid =? id); simpl.
    + apply Permutation_sym, Permutation_cons_append.
    + apply app_nil_r.
  - intros d. eexists. split; [reflexivity|].
    rewrite filter_app, map_app. simpl.
    destruct (sd =? d)%string; simpl.
    + apply Permutation_sym, Permutation_cons_append.
    + apply app_nil_r.
Qed.

Lemma addCommitteeSlots_read_back_witness :
  exists found,
    fst (getCommitteeSlotsByCommittee 1
           (snd (addCommitteeSlots true 1 "BQ" 2 db1))) = Resolved found
    /\ Permutation found [mk_division_slots "BQ" 2; mk_division_slots "AO" 5].
Proof.
  exact (proj1 (addCommitteeSlots_read_back true db1 1 "BQ" 2 _ eq_refl) 1).
Defined.

Lemma filter_filter_ext {A} (p q p' q' : A -> bool) l :
  (forall x, p x && q x = p' x && q' x) ->
  filter p (filter q l) = filter p' (filter q' l).
Proof.
  intros H. induction l as [|a l IH]; simpl; [reflexivity|].
  specialize (H a).
  destruct (q a), (q' a), (p a) eqn:Ep, (p' a) eqn:Ep'; simpl in *;
    rewrite ?Ep, ?Ep'; try discriminate; now rewrite ?IH.
Qed.

Lemma filter_negb_twice {A} (f : A -> bool) l :
  filter (fun x => negb (f x)) (filter (fun x => negb (f x)) l)
  = filter (fun x => negb (f x)) l
  /\ filter f (filter (fun x => negb (f x)) l) = [].
Proof.
  induction l as [|a l [IH1 IH2]]; simpl; [auto|].
  destruct (f a) eqn:E; simpl; [auto|]. rewrite E. simpl.
  split; [now rewrite IH1|assumption].
Qed.

(** X7.  Deleting a slot requirement a second time reports no row and
    changes nothing; after a delete, the committee's list of slots is its
    old list without the division, the division's list is its old list
    without the committee, and no pair other than the deleted one has
    changed. *)
Theorem deleteSlotRequirement_again db cid sd :
  deleteSlotRequirement cid sd (snd (deleteSlotRequirement cid sd db))
  = (Resolved (VResult (mk_Result "DELETE" 0 [])),
     snd (deleteSlotRequirement cid sd db))
  /\ (forall id,
        fst (getCommitteeSlotsByCommittee id
               (snd (deleteSlotRequirement cid sd db)))
        = Resolved
            (filter (fun x => negb ((cid =? id)
                                    && (ds_senate_division_short_name x
                                        =? sd)%string))
               (sql_select_slots_by_committee id db)))
  /\ (forall d,
        fst (getCommitteeSlotsBySenate d
               (snd (deleteSlotRequirement cid sd db)))
        = Resolved
            (filter (fun x => negb ((sh_committee_id x =? cid)
                                    && (sd =? d)%string))
               (sql_select_slots_by_senate d db))).
Proof.
  split; [|split].
  - unfold deleteSlotRequirement, settles, result, sql_delete_committee_slots,
      set_committee_slots. simpl.
    destruct (filter_negb_twice (slot_matches cid sd) (committee_slots db))
      as [-> ->]. reflexivity.
  - intros id. unfold getCommitteeSlotsByCommittee, select_any,
      sql_select_slots_by_committee. simpl. f_equal.
    rewrite filter_map_swap. f_equal. apply filter_filter_ext. intros r.
    simpl. unfold slot_matches.
    destruct (cs_committee_id r =? id) eqn:E; simpl.
    + apply Z.eqb_eq in E. subst id.
      now rewrite andb_true_r, (Z.eqb_sym cid).
    + now rewrite andb_false_r.
  - intros d. unfold getCommitteeSlotsBySenate, select_any,
      sql_select_slots_by_senate. simpl. f_equal.
    rewrite filter_map_swap. f_equal. apply filter_filter_ext. intros r.
    simpl. unfold slot_matches.
    destruct (cs_senate_division_short_name r =? d)%string eqn:E; simpl.
    + apply String.eqb_eq in E. subst d.
      now rewrite andb_true_r, (String.eqb_sym sd).
    + now rewrite andb_false_r.
Qed.

(** ** How the slot operations compose *)

(** X8.  A create that resolved followed by the delete of the same pair:
    the delete reports one row and the slot table is what it was before the
    create, but the committee keeps the [total_slots] the create gave it.
    So if every aggregate matched its sum before and [n] is not 0, the
    aggregate of the committee no longer matches. *)
Theorem create_then_delete nn db cid sd n vs :
  fst (addCommitteeSlots nn cid sd n db) = Resolved vs ->
  deleteSlotRequirement cid sd (snd (addCommitteeSlots nn cid sd n db))
  = (Resolved (VResult (mk_Result "DELETE" 1 [])),
     {| committee := map (add_total_slots cid (Some n)) (committee db);
        committee_slots := committee_slots db;
        senate_division := senate_division db |})
  /\ (aggregate_consistent db = true -> n <> 0 ->
      aggregate_consistent
        (snd (deleteSlotRequirement cid sd
                (snd (addCommitteeSlots nn cid sd n db)))) = false).
Proof.
  rewrite addCommitteeSlots_run. cbv zeta.
  destruct (has_slot db cid sd) eqn:S; [discriminate|].
  destruct (negb _ || negb _) eqn:F; [discriminate|].
  destruct (nn && _); [discriminate|]. intros _.
  unfold deleteSlotRequirement, settles, result, sql_delete_committee_slots,
    set_committee_slots. simpl.
  unfold has_slot in S.
  rewrite !filter_app, (existsb_false_filter _ _ S), (filter_all _ _ S).
  simpl.
  assert (slot_matches cid sd (mk_committee_slots cid sd n) = true) as M
    by (apply slot_matches_true; split; reflexivity).
  rewrite !M. simpl. rewrite !app_nil_r.
  split; [reflexivity|].
  intros A Hn. apply not_true_iff_false. intros A'.
  rewrite aggregate_consistent_spec in A, A'. simpl in A'.
  apply orb_false_iff in F as [F _]. apply negb_false_iff in F.
  apply has_committee_In in F as (ch & Hch & E).
  specialize (A ch Hch).
  specialize (A' (add_total_slots cid (Some n) ch) (in_map _ _ _ Hch)).
  rewrite committee_id_add_total_slots, add_total_slots_same, A in A'
    by assumption.
  simpl in A'. injection A' as A'. lia.
Qed.

Lemma create_then_delete_witness :
  deleteSlotRequirement 1 "AO" (snd (addCommitteeSlots true 1 "AO" 5 db0))
  = (Resolved (VResult (mk_Result "DELETE" 1 [])),
     {| committee := map (add_total_slots 1 (Some 5)) (committee db0);
        committee_slots := committee_slots db0;
        senate_division := senate_division db0 |}).
Proof.
  exact (proj1 (create_then_delete true db0 1 "AO" 5 _ eq_refl)).
Defined.

Lemma add_total_slots_twice cid a b x :
  add_total_slots cid (Some b) (add_total_slots cid (Some a) x)
  = add_total_slots cid (Some (a + b)) x.
Proof.
  unfold add_total_slots. destruct (committee_id x =? cid) eqn:E; simpl.
  - rewrite E. unfold with_total_slots. simpl.
    destruct (total_slots x); simpl; [|reflexivity].
    now rewrite Z.add_assoc.
  - now rewrite E.
Qed.

Lemma set_slot_requirements_twice a b cid sd r :
  set_slot_requirements b cid sd (set_slot_requirements a cid sd r)
  = set_slot_requirements b cid sd r.
Proof.
  unfold set_slot_requirements.
  destruct (slot_matches cid sd r) eqn:E; [|now rewrite E].
  unfold slot_matches in *. simpl. now rewrite E.
Qed.

Lemma updateCommitteeSlots_compose nn db cid sd n m c :
  wf_db nn db = true ->
  In (mk_committee_slots cid sd c) (committee_slots db) ->
  updateCommitteeSlots nn cid sd m (snd (updateCommitteeSlots nn cid sd n db))
  = updateCommitteeSlots nn cid sd m db.
Proof.
  intros W Hin.
  pose proof (updateCommitteeSlots_wf nn db cid sd n W
                (In_has_slot _ _ _ _ Hin)) as W1.
  rewrite (updateCommitteeSlots_found _ _ _ _ m _ W Hin).
  rewrite (updateCommitteeSlots_found _ _ _ _ n _ W Hin) in *.
  cbn [snd] in *.
  assert (In (mk_committee_slots cid sd n)
            (map (set_slot_requirements n cid sd) (committee_slots db))) as Hin1.
  { rewrite <- (set_slot_requirements_same n cid sd c). now apply in_map. }
  rewrite (updateCommitteeSlots_found _ _ _ _ m _ W1 Hin1). simpl.
  rewrite (filter_map_preserved (fun c' => committee_id c' =? cid))
    by (intros x; now rewrite committee_id_add_total_slots).
  rewrite length_map, !map_map.
  assert (forall x, add_total_slots cid (Some (m - n))
                      (add_total_slots cid (Some (n - c)) x)
                    = add_total_slots cid (Some (m - c)) x) as Add.
  { intros x. rewrite add_total_slots_twice. do 2 f_equal. lia. }
  rewrite (map_ext _ _ Add).
  now rewrite (map_ext _ _ (set_slot_requirements_twice n m cid sd)).
Qed.

(** X9.  Two updates of an existing slot in a row settle and leave the store
    exactly as the second update alone would: the slot holds the last value
    and the aggregate has moved by the last value minus the original one,
    the intermediate value leaving no trace. *)
Theorem update_twice nn db cid sd n m c :
  wf_db nn db = true ->
  In (mk_committee_slots cid sd c) (committee_slots db) ->
  updateCommitteeSlots nn cid sd m (snd (updateCommitteeSlots nn cid sd n db))
  = updateCommitteeSlots nn cid sd m db
  /\ snd (updateCommitteeSlots nn cid sd m
            (snd (updateCommitteeSlots nn cid sd n db)))
     = {| committee := map (add_total_slots cid (Some (m - c))) (committee db);
          committee_slots :=
            map (set_slot_requirements m cid sd) (committee_slots db);
          senate_division := senate_division db |}.
Proof.
  intros W Hin.
  rewrite (updateCommitteeSlots_compose _ _ _ _ n m _ W Hin).
  split; [reflexivity|].
  now rewrite (updateCommitteeSlots_found _ _ _ _ m _ W Hin).
Qed.

Lemma update_twice_witness :
  snd (updateCommitteeSlots true 2 "BQ" 1
         (snd (updateCommitteeSlots true 2 "BQ" 40 db1)))
  = snd (updateCommitteeSlots true 2 "BQ" 1 db1).
Proof.
  exact (f_equal snd
           (proj1 (update_twice true db1 2 "BQ" 40 1 4 eq_refl
                     (or_intror (or_intror (or_introl eq_refl)))))).
Defined.

Lemma add_total_slots_zero cid t :
  map (add_total_slots cid (Some 0)) t = t.
Proof.
  rewrite <- (map_id t) at 2. apply map_ext. intros x.
  unfold add_total_slots. destruct (committee_id x =? cid); [|reflexivity].
  destruct x as [i nm ds [t0|]]; unfold with_total_slots; simpl;
    [|reflexivity].
  now rewrite Z.add_0_r.
Qed.

Lemma set_slot_requirements_unchanged t cid sd c :
  slot_keys_unique t = true -> In (mk_committee_slots cid sd c) t ->
  map (set_slot_requirements c cid sd) t = t.
Proof.
  intros U Hin. rewrite <- (map_id t) at 2. apply map_ext_in. intros r Hr.
  unfold set_slot_requirements. destruct (slot_matches cid sd r) eqn:E;
    [|reflexivity].
  assert (In r (filter (slot_matches cid sd) t)) as I
    by (apply filter_In; auto).
  rewrite (slot_keys_unique_match _ _ _ _ U Hin) in I.
  destruct I as [<-|[]]. reflexivity.
Qed.

(** X10.  Updating an existing slot to the value it already holds resolves
    with one row per statement and leaves the store exactly as it was; and
    updating it to another value and then back restores the store, the
    aggregate included. *)
Theorem update_and_back nn db cid sd n c :
  wf_db nn db = true ->
  In (mk_committee_slots cid sd c) (committee_slots db) ->
  updateCommitteeSlots nn cid sd c db
  = (Resolved [ VResult (mk_Result "UPDATE" 1 []);
                VResult (mk_Result "UPDATE" 1 []) ], db)
  /\ snd (updateCommitteeSlots nn cid sd c
            (snd (updateCommitteeSlots nn cid sd n db))) = db.
Proof.
  intros W Hin.
  assert (updateCommitteeSlots nn cid sd c db
          = (Resolved [ VResult (mk_Result "UPDATE" 1 []);
                        VResult (mk_Result "UPDATE" 1 []) ], db)) as Same.
  { rewrite (updateCommitteeSlots_found _ _ _ _ c _ W Hin).
    destruct (referenced_committee_once _ _ _ _ _ W Hin) as (ch & -> & _).
    apply wf_db_parts in W as (_ & U & _).
    rewrite Z.sub_diag, add_total_slots_zero,
      (set_slot_requirements_unchanged _ _ _ _ U Hin).
    destruct db; reflexivity. }
  split; [exact Same|].
  now rewrite (updateCommitteeSlots_compose _ _ _ _ n c _ W Hin), Same.
Qed.

Lemma update_and_back_witness :
  snd (updateCommitteeSlots true 1 "AO" 5
         (snd (updateCommitteeSlots true 1 "AO" 9 db1))) = db1.
Proof.
  exact (proj2 (update_and_back true db1 1 "AO" 9 5 eq_refl
                  (or_introl eq_refl))).
Defined.

Lemma updateCommitteeSlots_nothing_to_update_witness :
  updateCommitteeSlots true 999 "ZZ" 3 db1 =
  (Resolved [ VResult (mk_Result "UPDATE" 0 []);
              VResult (mk_Result "UPDATE" 0 []) ], db1).
Proof.
  exact (updateCommitteeSlots_nothing_to_update true db1 999 "ZZ" 3
           eq_refl eq_refl).
Defined.

(** ** Committees: update, add and their routes *)

Lemma existsb_name_map (y : string) t :
  existsb (String.eqb y) (map name t)
  = existsb (fun c => (name c =? y)%string) t.
Proof.
  induction t as [|c t IH]; simpl; [reflexivity|].
  now rewrite IH, String.eqb_sym.
Qed.

Lemma set_committee_columns_elsewhere nm ds s id t :
  existsb (fun c => committee_id c =? id) t = false ->
  map (set_committee_columns nm ds s id) t = t.
Proof.
  intros H. rewrite <- (map_id t) at 2. apply map_ext_in. intros c Hc.
  pose proof (existsb_false_In _ _ _ H Hc) as F. simpl in F.
  unfold set_committee_columns. now rewrite F.
Qed.

(** Among names none of which is [y], overwriting the name of committee
    [id] makes [y] occur exactly when [y] is the new name. *)
Lemma renamed_occurs nm ds s id y t :
  existsb (fun c => committee_id c =? id) t = true ->
  existsb (fun c => (name c =? y)%string) t = false ->
  existsb (fun c => (name c =? y)%string)
    (map (set_committee_columns nm ds s id) t)
  = (nm =? y)%string.
Proof.
  induction t as [|c t IH]; simpl; [discriminate|].
  intros H N. apply orb_false_iff in N as [N1 N2].
  unfold set_committee_columns at 1.
  destruct (committee_id c =? id) eqn:E; simpl.
  - destruct (nm =? y)%string eqn:Eny; [reflexivity|]. simpl.
    destruct (existsb (fun c0 => committee_id c0 =? id) t) eqn:H'.
    + now rewrite (IH eq_refl N2).
    + now rewrite (set_committee_columns_elsewhere _ _ _ _ _ H').
  - rewrite N1. simpl. simpl in H. now apply IH.
Qed.

Lemma updated_names_duplicate nm ds s id t :
  committee_ids_unique t = true ->
  has_duplicate (map name t) = false ->
  existsb (fun c => committee_id c =? id) t = true ->
  has_duplicate (map name (map (set_committee_columns nm ds s id) t))
  = existsb (fun c => negb (committee_id c =? id) && (name c =? nm)%string) t.
Proof.
  induction t as [|c t IH]; simpl; [discriminate|].
  intros U D H.
  apply andb_true_iff in U as [U0 U]. apply negb_true_iff in U0.
  apply orb_false_iff in D as [D0 D]. rewrite existsb_name_map in D0.
  unfold set_committee_columns at 1.
  destruct (committee_id c =? id) eqn:E; simpl.
  - apply Z.eqb_eq in E. rewrite E in U0.
    rewrite (set_committee_columns_elsewhere _ _ _ _ _ U0), D, orb_false_r.
    rewrite existsb_name_map.
    clear -U0. induction t as [|x t IH]; simpl in *; [reflexivity|].
    apply orb_false_iff in U0 as [-> U0]. simpl. now rewrite IH.
  - simpl in H. rewrite (IH U D H), existsb_name_map.
    rewrite (renamed_occurs _ _ _ _ _ _ H D0).
    now rewrite String.eqb_sym.
Qed.

Lemma has_duplicate_snoc l (x : string) :
  has_duplicate (l ++ [x]) = has_duplicate l || existsb (String.eqb x) l.
Proof.
  induction l as [|a l IH]; simpl; [reflexivity|].
  rewrite existsb_app, IH. simpl. rewrite (String.eqb_sym x a).
  destruct (existsb (String.eqb a) l), (a =? x)%string, (has_duplicate l),
    (existsb (String.eqb x) l); reflexivity.
Qed.

Lemma committee_ids_unique_same_ids t t' :
  map committee_id t' = map committee_id t ->
  committee_ids_unique t = true -> committee_ids_unique t' = true.
Proof.
  intros E U. apply committee_ids_unique_NoDup. rewrite E.
  now apply committee_ids_unique_NoDup.
Qed.

Lemma map_committee_id_set_committee_columns nm ds s id t :
  map committee_id (map (set_committee_columns nm ds s id) t)
  = map committee_id t.
Proof.
  rewrite map_map. apply map_ext. intros c.
  apply committee_id_set_committee_columns.
Qed.

Lemma updateCommittee_run nn db id nm ds s :
  wf_db nn db = true ->
  updateCommittee id nm ds s db
  = (if negb (has_committee db id)
     then (Resolved (VResult (mk_Result "UPDATE" 0 [])), db)
     else if name_taken_by_other db id nm
     then (Rejected (QueryError (DatabaseError unique_violation)), db)
     else (Resolved (VResult (mk_Result "UPDATE" 1 [])),
           set_committee db
             (map (set_committee_columns nm ds s id) (committee db)))).
Proof.
  intros W. unfold wf_db in W. rewrite !andb_true_iff in W.
  destruct W as ((((U & N) & _) & _) & _). apply negb_true_iff in N.
  unfold updateCommittee, tx, settles, result, sql_update_committee,
    committee_name_unique_violation in *.
  destruct (has_committee db id) eqn:H; simpl.
  - unfold has_committee in H.
    rewrite (updated_names_duplicate nm ds s id _ U N H).
    fold (name_taken_by_other db id nm).
    destruct (name_taken_by_other db id nm); [reflexivity|].
    apply existsb_exists in H as (c & Hc & E). apply Z.eqb_eq in E.
    subst id. now rewrite (committee_ids_unique_filter _ _ U Hc).
  - unfold has_committee in H.
    rewrite (existsb_false_filter _ _ H),
      (set_committee_columns_elsewhere _ _ _ _ _ H).
    destruct db; reflexivity.
Qed.

(** X11.  [updateCommittee] on a store that satisfies the schema's
    constraints: with no committee of that id it resolves with a row count
    of 0 and the store as it was; when another committee already carries
    the new name it rejects with the unique violation and the store as it
    was; otherwise it resolves with a row count of 1, the committee reads
    back with the new name, description and [total_slots], every slot row
    is as before and the store still satisfies the constraints. *)
Theorem updateCommittee_cases nn db id nm ds s :
  wf_db nn db = true ->
  updateCommittee id nm ds s db
  = (if negb (has_committee db id)
     then (Resolved (VResult (mk_Result "UPDATE" 0 [])), db)
     else if name_taken_by_other db id nm
     then (Rejected (QueryError (DatabaseError unique_violation)), db)
     else (Resolved (VResult (mk_Result "UPDATE" 1 [])),
           set_committee db
             (map (set_committee_columns nm ds s id) (committee db))))
  /\ (has_committee db id = true -> name_taken_by_other db id nm = false ->
      getCommittee id (snd (updateCommittee id nm ds s db))
      = (Resolved (mk_committee id nm ds (Some s)),
         snd (updateCommittee id nm ds s db))
      /\ committee_slots (snd (updateCommittee id nm ds s db))
         = committee_slots db
      /\ wf_db nn (snd (updateCommittee id nm ds s db)) = true).
Proof.
  intros W.
  pose proof (updateCommittee_run nn db id nm ds s W) as Run.
  split; [exact Run|]. intros H T. rewrite Run, H, T. simpl.
  pose proof W as W'. unfold wf_db in W'. rewrite !andb_true_iff in W'.
  destruct W' as ((((U & N) & K) & R) & P). apply negb_true_iff in N.
  assert (committee_ids_unique
            (map (set_committee_columns nm ds s id) (committee db)) = true)
    as U'.
  { apply (committee_ids_unique_same_ids (committee db)); [|exact U].
    apply map_committee_id_set_committee_columns. }
  split; [|split; [reflexivity|]].
  - unfold getCommittee, select_one, sql_select_committee. simpl.
    apply has_committee_In in H as (c & Hc & E).
    assert (In (mk_committee id nm ds (Some s))
              (map (set_committee_columns nm ds s id) (committee db))) as I.
    { apply in_map_iff. exists c. split; [|exact Hc].
      unfold set_committee_columns. now rewrite E, Z.eqb_refl. }
    pose proof (committee_ids_unique_filter _ _ U' I) as F. simpl in F.
    now rewrite F.
  - unfold wf_db. simpl. rewrite !andb_true_iff. repeat split.
    + exact U'.
    + apply negb_true_iff. unfold committee_name_unique_violation.
      unfold has_committee in H.
      now rewrite (updated_names_duplicate nm ds s id _ U N H).
    + exact K.
    + unfold slots_reference in *. simpl. rewrite forallb_forall in *.
      intros r Hr. specialize (R r Hr).
      rewrite (has_committee_ids db) by
        (simpl; apply map_committee_id_set_committee_columns).
      exact R.
    + unfold total_slots_present in *. destruct nn; simpl in *; [|reflexivity].
      rewrite forallb_forall in *. intros c' Hc'.
      apply in_map_iff in Hc' as (c & <- & Hc).
      unfold set_committee_columns. destruct (_ =? _); [reflexivity|auto].
Qed.

Lemma updateCommittee_cases_witness :
  updateCommittee 1 "Library Committee" "x" 9 db1
  = (Rejected (QueryError (DatabaseError unique_violation)), db1)
  /\ getCommittee 1 (snd (updateCommittee 1 "Kernel Committee" "x" 9 db1))
     = (Resolved (mk_committee 1 "Kernel Committee" "x" (Some 9)),
        snd (updateCommittee 1 "Kernel Committee" "x" 9 db1)).
Proof.
  split.
  - exact (proj1 (updateCommittee_cases true db1 1 "Library Committee" "x" 9
                    eq_refl)).
  - exact (proj1 (proj2 (updateCommittee_cases true db1 1 "Kernel Committee"
                           "x" 9 eq_refl) eq_refl eq_refl)).
Defined.



Lemma no_slot_of_committee db g :
  slots_reference db = true -> has_committee db g = false ->
  filter (fun r => cs_committee_id r =? g) (committee_slots db) = []
  /\ sum_slot_requirements g (committee_slots db) = 0.
Proof.
  intros R H.
  assert (forall r, In r (committee_slots db) ->
                    (cs_committee_id r =? g) = false) as K.
  { intros r Hr. destruct (slots_reference_In _ _ R Hr) as [C _].
    apply Z.eqb_neq. intros E. rewrite E in C. congruence. }
  clear R H. induction (committee_slots db) as [|r t IH]; simpl; [auto|].
  rewrite (K r (or_introl eq_refl)).
  destruct IH as [-> ->]; [|auto]. intros x Hx. apply K. now right.
Qed.

Lemma addCommittee_run nn db g nm ds s :
  wf_db nn db = true ->
  addCommittee g nm ds s db
  = (if has_committee db g || name_taken db nm
     then (Rejected (QueryError (DatabaseError unique_violation)), db)
     else (Resolved (VRow (Row_committeeId g)),
           set_committee db
             (committee db ++ [mk_committee g nm ds (Some s)]))).
Proof.
  intros W. unfold wf_db in W. rewrite !andb_true_iff in W.
  destruct W as ((((_ & N) & _) & _) & _). apply negb_true_iff in N.
  unfold addCommittee, settles, one, sql_insert_committee,
    committee_name_unique_violation in *.
  cbv zeta. rewrite map_app. cbn [map name].
  rewrite has_duplicate_snoc, N, existsb_name_map. cbn [orb].
  fold (name_taken db nm).
  destruct (has_committee db g || name_taken db nm); reflexivity.
Qed.

Lemma addCommittee_aggregate db g nm ds s :
  slots_reference db = true -> has_committee db g = false ->
  aggregate_consistent
    (set_committee db (committee db ++ [mk_committee g nm ds (Some s)]))
  = aggregate_consistent db && (s =? 0).
Proof.
  intros R H. unfold aggregate_consistent. simpl.
  rewrite forallb_app. simpl.
  destruct (no_slot_of_committee _ _ R H) as [_ ->].
  now rewrite andb_true_r.
Qed.

(** X13.  [addCommittee] on a store that satisfies the schema's
    constraints, [g] being the id the store generates: it rejects with the
    unique violation, the store as it was, when a committee already has the
    id or the name; otherwise it resolves with the generated id, the
    committee reads back with the given name, description and
    [total_slots], it has no slot row, the store still satisfies the
    constraints, and every aggregate matches its sum afterwards exactly when
    it did before and the given [slots] is 0. *)
Theorem addCommittee_cases nn db g nm ds s :
  wf_db nn db = true ->
  addCommittee g nm ds s db
  = (if has_committee db g || name_taken db nm
     then (Rejected (QueryError (DatabaseError unique_violation)), db)
     else (Resolved (VRow (Row_committeeId g)),
           set_committee db
             (committee db ++ [mk_committee g nm ds (Some s)])))
  /\ (has_committee db g = false -> name_taken db nm = false ->
      getCommittee g (snd (addCommittee g nm ds s db))
      = (Resolved (mk_committee g nm ds (Some s)),
         snd (addCommittee g nm ds s db))
      /\ fst (getCommitteeSlotsByCommittee g (snd (addCommittee g nm ds s db)))
         = Resolved []
      /\ wf_db nn (snd (addCommittee g nm ds s db)) = true
      /\ aggregate_consistent (snd (addCommittee g nm ds s db))
         = aggregate_consistent db && (s =? 0)).
Proof.
  intros W. pose proof (addCommittee_run nn db g nm ds s W) as Run.
  split; [exact Run|]. intros H T. rewrite Run, H, T. simpl.
  pose proof W as W'. unfold wf_db in W'. rewrite !andb_true_iff in W'.
  destruct W' as ((((U & N) & K) & R) & P). apply negb_true_iff in N.
  assert (committee_ids_unique
            (committee db ++ [mk_committee g nm ds (Some s)]) = true) as U'.
  { apply committee_ids_unique_NoDup. rewrite map_app. simpl.
    apply NoDup_app.
    - now apply committee_ids_unique_NoDup.
    - repeat constructor. intros [].
    - intros x Hx [<-|[]]. apply in_map_iff in Hx as (c & E & Hc).
      unfold has_committee in H.
      pose proof (existsb_false_In _ _ _ H Hc) as F. simpl in F.
      rewrite E, Z.eqb_refl in F. discriminate. }
  split; [|split; [|split]].
  - unfold getCommittee, select_one, sql_select_committee. simpl.
    assert (In (mk_committee g nm ds (Some s))
              (committee db ++ [mk_committee g nm ds (Some s)])) as I
      by (apply in_app_iff; right; left; reflexivity).
    pose proof (committee_ids_unique_filter _ _ U' I) as F. simpl in F.
    now rewrite F.
  - unfold getCommitteeSlotsByCommittee, select_any,
      sql_select_slots_by_committee. simpl.
    now destruct (no_slot_of_committee _ _ R H) as [-> _].
  - unfold wf_db, set_committee.
    cbn [committee committee_slots senate_division].
    rewrite !andb_true_iff. repeat split.
    + exact U'.
    + apply negb_true_iff. unfold committee_name_unique_violation in *.
      rewrite map_app. cbn [map name].
      rewrite has_duplicate_snoc, N, existsb_name_map. exact T.
    + exact K.
    + unfold slots_reference in *. simpl. rewrite forallb_forall in *.
      intros r Hr. specialize (R r Hr).
      apply andb_true_iff in R as [R1 R2]. apply andb_true_iff.
      split; [|exact R2]. unfold has_committee in *. simpl.
      rewrite existsb_app, R1. reflexivity.
    + unfold total_slots_present in *. destruct nn; simpl in *; [|reflexivity].
      rewrite forallb_app, P. reflexivity.
  - now apply addCommittee_aggregate.
Qed.

Lemma addCommittee_cases_witness :
  getCommittee 20 (snd (addCommittee 20 "Budget Committee" "money" 42 db1))
  = (Resolved (mk_committee 20 "Budget Committee" "money" (Some 42)),
     snd (addCommittee 20 "Budget Committee" "money" 42 db1))
  /\ aggregate_consistent
       (snd (addCommittee 20 "Budget Committee" "money" 42 db1)) = false.
Proof.
  destruct (proj2 (addCommittee_cases true db1 20 "Budget Committee" "money"
                     42 eq_refl) eq_refl eq_refl) as (A & _ & _ & B).
  split; [exact A|exact B].
Defined.



(** ** The connection is built once *)

Lemma load_times_loaded k c n :
  load_times k {| db_handle := Some c; built := n |}
  = (repeat c k, {| db_handle := Some c; built := n |}).
Proof.
  induction k as [|k IH]; simpl; [reflexivity|]. now rewrite IH.
Qed.

(** X15.  Any number of calls of [loadDatabaseConnection], at least one:
    every call returns the same connection, which stays in the module
    variable; the connection is built by the first call when none was
    loaded before, and no call builds another one. *)
Theorem loadDatabaseConnection_once k m :
  exists c,
    fst (load_times (S k) m) = repeat c (S k)
    /\ db_handle (snd (load_times (S k) m)) = Some c
    /\ (db_handle m = None ->
        c = built m /\ built (snd (load_times (S k) m)) = S (built m))
    /\ (forall c0, db_handle m = Some c0 ->
        c = c0 /\ snd (load_times (S k) m) = m).
Proof.
  destruct m as [[c0|] n]; cbn [load_times loadDatabaseConnection db_handle built].
  - exists c0. rewrite load_times_loaded. simpl.
    repeat split; try discriminate; congruence.
  - exists n. rewrite load_times_loaded. simpl.
    repeat split; try discriminate.
Qed.
